(** * ratelimit: a shallow embedding of [src/index.js]

    The middleware of [src/index.js] wraps a downstream handler of the
    [micro] HTTP framework.  For each request it resolves an identity,
    evaluates the allow-list and deny-list predicates, asks the
    [ratelimiter] counter store for the quota of that identity, writes the
    rate-limit headers and either calls the handler or answers 429.

    Modelling choices.
    - JavaScript values are the constructors of [jsval]; the numbers the
      middleware handles (counts, UNIX timestamps, [Date.now()]) are
      integers, so [VNum] carries a [Z].  The one place where a fraction
      appears, [limit.reset - (Date.now() / 1000) | 0], is computed over
      exact rationals ([Q]) and truncated by [js_bitor0]; the rounding of
      IEEE doubles is not modelled.
    - An [async] function is a computation in the monad [M]: it reads and
      writes the response, the counter store and the clock, records what it
      does in a list of [Event]s, and ends either with a value or with a
      thrown error ([Outcome]).  [await] of a rejected promise is [Throw].
    - The collaborators that are not part of this repository (the
      [ratelimiter] store, the [ms] formatter, the clock) are variables of
      the section [Middleware]; the predicates, the resolver and the
      handler are supplied by the caller, as in the source. *)

From Stdlib Require Import ZArith QArith Lia List.
From stdpp Require Import base option gmap strings pretty list.

Local Open Scope string_scope.
Local Open Scope Z_scope.

(** ** JavaScript values *)

Inductive jsval : Type :=
| VUndefined
| VNull
| VBool (b : bool)
| VNum (n : Z)
| VStr (s : string).

Global Instance jsval_eq_dec : EqDecision jsval.
Proof. solve_decision. Defined.

(** ToBoolean: [undefined], [null], [false], [0] and [''] are falsy. *)
Definition truthy (v : jsval) : bool :=
  match v with
  | VUndefined | VNull => false
  | VBool b => b
  | VNum n => negb (Z.eqb n 0)
  | VStr s => negb (String.eqb s EmptyString)
  end.

(** [false === v] *)
Definition is_false (v : jsval) : bool :=
  match v with
  | VBool false => true
  | _ => false
  end.

(** A property that holds a string or is [undefined]. *)
Definition of_prop (p : option string) : jsval :=
  match p with
  | Some s => VStr s
  | None => VUndefined
  end.

(** ** Errors and outcomes *)

Record JsError : Type := mkError {
  err_name : string;
  err_message : string;
  err_statusCode : option Z
}.

(** [new Error(msg)] *)
Definition new_Error (msg : string) : JsError :=
  {| err_name := "Error"; err_message := msg; err_statusCode := None |}.

(** [err.statusCode = n] *)
Definition with_statusCode (n : Z) (e : JsError) : JsError :=
  {| err_name := err_name e; err_message := err_message e;
     err_statusCode := Some n |}.

(** Reading a property of [undefined]. *)
Definition TypeError_undefined : JsError :=
  {| err_name := "TypeError";
     err_message := "Cannot read properties of undefined";
     err_statusCode := None |}.

Inductive Outcome (A : Type) : Type :=
| Ret (a : A)
| Throw (e : JsError).
Arguments Ret {A} a.
Arguments Throw {A} e.

(** [a || b], where evaluating [a] or [b] may throw; [b] is only consulted
    when [a] is falsy. *)
Definition or_else (a b : Outcome jsval) : Outcome jsval :=
  match a with
  | Ret v => if truthy v then Ret v else b
  | Throw e => Throw e
  end.
Infix "<||>" := or_else (at level 51, right associativity).

(** [o.p] where [o] may be [undefined]. *)
Definition prop_of {A : Type} (o : option A) (p : A -> jsval) : Outcome jsval :=
  match o with
  | Some a => Ret (p a)
  | None => Throw TypeError_undefined
  end.

(** ** Requests *)

Record Socket : Type := {
  sock_remoteAddress : option string
}.

Record Connection : Type := {
  conn_remoteAddress : option string;
  conn_socket : option Socket
}.

Record Request : Type := {
  req_headers : gmap string string;
  req_connection : option Connection;
  req_socket : option Socket
}.

(** [keyGenerator], lines 34-39. *)
Definition keyGenerator (req : Request) : Outcome jsval :=
  Ret (of_prop (req_headers req !! "x-forwarded-for")) <||>
  prop_of (req_connection req) (fun c => of_prop (conn_remoteAddress c)) <||>
  prop_of (req_socket req) (fun s => of_prop (sock_remoteAddress s)) <||>
  match req_connection req with
  | Some c => prop_of (conn_socket c) (fun s => of_prop (sock_remoteAddress s))
  | None => Throw TypeError_undefined
  end.

(** ** Responses

    The response is Node's [http.ServerResponse], which is not part of this
    repository.  It is the one [micro] hands to the middleware: its head
    has not been sent.  Node keeps one value per header under the
    lower-cased name, and refuses a header name that is not an HTTP token
    ([is_token], Node's [checkIsHttpToken]) with a [TypeError].
    [res_body] is the [body] property that line 92 reads; [res_ended] is
    the chunk given to [res.end]. *)

Definition lower_ascii (c : Ascii.ascii) : Ascii.ascii :=
  let n := Ascii.nat_of_ascii c in
  if (Nat.leb 65 n && Nat.leb n 90)%bool then Ascii.ascii_of_nat (n + 32) else c.

Fixpoint toLowerCase (s : string) : string :=
  match s with
  | EmptyString => EmptyString
  | String c s' => String (lower_ascii c) (toLowerCase s')
  end.

Record Response : Type := mkResponse {
  res_headers : gmap string jsval;
  res_statusCode : Z;
  res_body : option string;
  res_ended : option string
}.

(** The characters of an HTTP token:
    [^_`a-zA-Z-0-9!#$%&'*+.|~]. *)
Definition is_token_char (c : Ascii.ascii) : bool :=
  let n := Ascii.nat_of_ascii c in
  ((Nat.eqb n 33) || (Nat.leb 35 n && Nat.leb n 39) ||
   (Nat.eqb n 42) || (Nat.eqb n 43) || (Nat.eqb n 45) || (Nat.eqb n 46) ||
   (Nat.leb 48 n && Nat.leb n 57) || (Nat.leb 65 n && Nat.leb n 90) ||
   (Nat.leb 94 n && Nat.leb n 122) || (Nat.eqb n 124) || (Nat.eqb n 126))%bool.

Fixpoint all_token_chars (s : string) : bool :=
  match s with
  | EmptyString => true
  | String c s' => (is_token_char c && all_token_chars s')%bool
  end.

(** A header name Node accepts: a non-empty string of token characters. *)
Definition is_token (name : string) : bool :=
  match name with
  | EmptyString => false
  | _ => all_token_chars name
  end.

(** The error of [res.setHeader] for a name that is not a token. *)
Definition TypeError_invalid_token (name : string) : JsError :=
  {| err_name := "TypeError";
     err_message :=
       "Header name must be a valid HTTP token [" ++
       String (Ascii.ascii_of_nat 34) name ++
       String (Ascii.ascii_of_nat 34) "]";
     err_statusCode := None |}.

(** What an accepted [res.setHeader(name, v)] does to the response. *)
Definition with_header (name : string) (v : jsval) (r : Response) : Response :=
  {| res_headers := <[toLowerCase name := v]> (res_headers r);
     res_statusCode := res_statusCode r;
     res_body := res_body r;
     res_ended := res_ended r |}.

Definition getHeader (name : string) (r : Response) : option jsval :=
  res_headers r !! toLowerCase name.

Definition set_statusCode (n : Z) (r : Response) : Response :=
  {| res_headers := res_headers r;
     res_statusCode := n;
     res_body := res_body r;
     res_ended := res_ended r |}.

Definition end_with (chunk : string) (r : Response) : Response :=
  {| res_headers := res_headers r;
     res_statusCode := res_statusCode r;
     res_body := res_body r;
     res_ended := Some chunk |}.

(** A response nobody has touched yet. *)
Definition fresh_response : Response :=
  {| res_headers := ∅; res_statusCode := 200; res_body := None; res_ended := None |}.

(** ** Configuration *)

Record HeaderNames : Type := {
  hn_remaining : option string;
  hn_reset : option string;
  hn_total : option string
}.

Definition Predicate : Type := Request -> Outcome jsval.

Record Opts : Type := {
  opt_duration : option Z;
  opt_max : option Z;
  opt_id : option Predicate;
  opt_whitelist : option Predicate;
  opt_blacklist : option Predicate;
  opt_headers : option HeaderNames;
  opt_disableHeader : bool;
  opt_throw : bool;
  opt_errorMessage : option string
}.

(** [{}] *)
Definition no_opts : Opts :=
  {| opt_duration := None; opt_max := None; opt_id := None;
     opt_whitelist := None; opt_blacklist := None; opt_headers := None;
     opt_disableHeader := false; opt_throw := false; opt_errorMessage := None |}.

Definition Handler : Type := Request -> Response -> Outcome jsval * Response.

(** The two ways of calling the constructor: [ratelimit(opts, handler)] and
    [ratelimit(handler)] (lines 40-44). *)
Inductive Args : Type :=
| WithOpts (opts : Opts) (handler : Handler)
| HandlerOnly (handler : Handler).

Definition args_opts (a : Args) : Opts :=
  match a with
  | WithOpts o _ => o
  | HandlerOnly _ => no_opts
  end.

Definition args_handler (a : Args) : Handler :=
  match a with
  | WithOpts _ h => h
  | HandlerOnly h => h
  end.

(** Lines 45-49: the header names, with their defaults. *)
Definition name_of (sel : HeaderNames -> option string) (dflt : string)
    (o : Opts) : string :=
  match opt_headers o with
  | Some h => match sel h with Some n => n | None => dflt end
  | None => dflt
  end.

Definition remaining_name : Opts -> string := name_of hn_remaining "X-RateLimit-Remaining".
Definition reset_name : Opts -> string := name_of hn_reset "X-RateLimit-Reset".
Definition total_name : Opts -> string := name_of hn_total "X-RateLimit-Limit".

(** What the counter store answers. *)
Record Limit : Type := {
  total : Z;
  remaining : Z;
  reset : Z
}.

(** ** Numbers *)

(** ToInt32 of an integer. *)
Definition to_int32 (z : Z) : Z := (z + 2 ^ 31) mod 2 ^ 32 - 2 ^ 31.

(** Truncation toward zero of a rational. *)
Definition Qtrunc (q : Q) : Z := Z.quot (Qnum q) (Zpos (Qden q)).

(** [x | 0] *)
Definition js_bitor0 (x : Q) : Z := to_int32 (Qtrunc x).

(** Line 71. *)
Definition calls_of (limit : Limit) : Z :=
  if 0 <? remaining limit then remaining limit - 1 else 0.

(** Line 85. *)
Definition delta_of (limit : Limit) (now : Z) : Z :=
  js_bitor0 (inject_Z (reset limit) * inject_Z 1000 - inject_Z now)%Q.

(** Line 86. *)
Definition after_of (limit : Limit) (now : Z) : Z :=
  js_bitor0 (inject_Z (reset limit) - inject_Z now / inject_Z 1000)%Q.

(** ** What the middleware does, step by step *)

Inductive HeaderRole : Type := HTotal | HRemaining | HReset | HRetryAfter.

Inductive Event : Type :=
| EvResolveId
| EvWhitelist
| EvBlacklist
| EvLimiterGet (id : jsval)
| EvSetHeader (role : HeaderRole) (name : string) (v : jsval)
| EvHandler
| EvNow
| EvSetStatus (n : Z)
| EvEnd (chunk : string).

Global Instance HeaderRole_eq_dec : EqDecision HeaderRole.
Proof. solve_decision. Defined.
Global Instance Event_eq_dec : EqDecision Event.
Proof. solve_decision. Defined.

Record State (Db : Type) : Type := mkState {
  st_res : Response;
  st_db : Db;
  st_ticks : nat
}.
Arguments mkState {Db} _ _ _.
Arguments st_res {Db} _.
Arguments st_db {Db} _.
Arguments st_ticks {Db} _.

Record Run (S A : Type) : Type := mkRun {
  outcome : Outcome A;
  final : S;
  events : list Event
}.
Arguments mkRun {S A} _ _ _.
Arguments outcome {S A} _.
Arguments final {S A} _.
Arguments events {S A} _.

Definition M (Db A : Type) : Type := State Db -> Run (State Db) A.

Definition ret {Db A} (a : A) : M Db A := fun s => mkRun (Ret a) s [].

Definition raise {Db A} (e : JsError) : M Db A := fun s => mkRun (Throw e) s [].

Definition bind {Db A B} (m : M Db A) (f : A -> M Db B) : M Db B :=
  fun s =>
    let r := m s in
    match outcome r with
    | Ret a =>
        let r' := f a (final r) in
        mkRun (outcome r') (final r') (events r ++ events r')
    | Throw e => mkRun (Throw e) (final r) (events r)
    end.

Notation "x <- m ;; k" := (bind m (fun x => k))
  (at level 100, m at next level, right associativity).
Notation "m ;;; k" := (bind m (fun _ => k))
  (at level 100, right associativity).

(** The middleware changes the response and records that it did. *)
Definition on_res {Db} (ev : Event) (f : Response -> Response) : M Db unit :=
  fun s => mkRun (Ret tt) (mkState (f (st_res s)) (st_db s) (st_ticks s)) [ev].

Definition get_res {Db} : M Db Response := fun s => mkRun (Ret (st_res s)) s [].

(** [res.setHeader(name, v)]: Node throws for a name that is not an HTTP
    token, and otherwise stores the value; only a write that took place is
    recorded. *)
Definition setHeader {Db} (role : HeaderRole) (name : string) (v : jsval) : M Db unit :=
  if is_token name then on_res (EvSetHeader role name v) (with_header name v)
  else raise (TypeError_invalid_token name).

(** [await f(req)] for a caller-supplied function. *)
Definition await {Db A} (ev : Event) (o : Outcome A) : M Db A :=
  fun s => mkRun o s [ev].

(** [typeof p === 'function' ? await p(req) : false] *)
Definition await_predicate {Db} (ev : Event) (p : option Predicate)
    (req : Request) : M Db jsval :=
  match p with
  | Some f => await ev (f req)
  | None => ret (VBool false)
  end.

(** [opts.id ? opts.id(req) : keyGenerator(req)] *)
Definition resolve_id (o : Opts) (req : Request) : Outcome jsval :=
  match opt_id o with
  | Some f => f req
  | None => keyGenerator req
  end.

(** [await handler(req, res)] *)
Definition call_handler {Db} (h : Handler) (req : Request) : M Db jsval :=
  fun s =>
    let '(o, r) := h req (st_res s) in
    mkRun o (mkState r (st_db s) (st_ticks s)) [EvHandler].

(** [new Error(res.body)]: the message of an error built from [undefined]
    is the empty string. *)
Definition Error_of_body (body : option string) : JsError :=
  new_Error (match body with Some s => s | None => EmptyString end).

(** [opts.errorMessage || dflt] *)
Definition message_or (m : option string) (dflt : string) : string :=
  match m with
  | Some s => if String.eqb s EmptyString then dflt else s
  | None => dflt
  end.

(** What a predicate answers once awaited; an absent predicate answers
    [false] and is not called. *)
Definition predicate_result (p : option Predicate) (req : Request) : Outcome jsval :=
  match p with
  | Some f => f req
  | None => Ret (VBool false)
  end.

Section Middleware.

Context {Db : Type}.

(** [new Limiter(Object.assign({}, opts, { id })).get], awaited through
    [thenify] (lines 65-68 and 104-113): the store answers with a limit
    or with an error, which rejects the promise. *)
Variable limiter_get : Opts -> jsval -> Db -> Outcome Limit * Db.

(** [ms(delta, { long: true })] *)
Variable ms_long : Z -> string.

(** The successive values of [Date.now()]. *)
Variable clock : nat -> Z.

Definition await_limiter (o : Opts) (id : jsval) : M Db Limit :=
  fun s =>
    let '(r, db) := limiter_get o id (st_db s) in
    mkRun r (mkState (st_res s) db (st_ticks s)) [EvLimiterGet id].

Definition Date_now : M Db Z :=
  fun s =>
    mkRun (Ret (clock (st_ticks s)))
          (mkState (st_res s) (st_db s) (S (st_ticks s))) [EvNow].

Definition default_message (delta : Z) : string :=
  "Rate limit exceeded, retry in " ++ ms_long delta ++ ".".

(** Lines 76-80. *)
Definition set_limit_headers (opts : Opts) (limit : Limit) : M Db unit :=
  if negb (opt_disableHeader opts) then
    setHeader HTotal (total_name opts) (VNum (total limit)) ;;;
    setHeader HRemaining (remaining_name opts) (VNum (calls_of limit)) ;;;
    setHeader HReset (reset_name opts) (VNum (reset limit))
  else ret tt.

(** Lines 85-96. *)
Definition throttle (opts : Opts) (limit : Limit) : M Db jsval :=
  now1 <- Date_now ;;
  let delta := delta_of limit now1 in
  now2 <- Date_now ;;
  let after := after_of limit now2 in
  setHeader HRetryAfter "Retry-After" (VNum after) ;;;
  on_res (EvSetStatus 429) (set_statusCode 429) ;;;
  if opt_throw opts then
    res <- get_res ;;
    raise (with_statusCode (res_statusCode res) (Error_of_body (res_body res)))
  else
    on_res (EvEnd (message_or (opt_errorMessage opts) (default_message delta)))
           (end_with (message_or (opt_errorMessage opts) (default_message delta))) ;;;
    ret VUndefined.

(** The request handler that [ratelimit(opts, handler)] returns,
    lines 51-97. *)
Definition ratelimit (a : Args) (req : Request) : M Db jsval :=
  let opts := args_opts a in
  let handler := args_handler a in
  id <- await EvResolveId (resolve_id opts req) ;;
  whitelisted <- await_predicate EvWhitelist (opt_whitelist opts) req ;;
  blacklisted <- await_predicate EvBlacklist (opt_blacklist opts) req ;;
  if truthy blacklisted then
    raise (with_statusCode 493 (new_Error "Forbidden"))
  else if (is_false id || truthy whitelisted)%bool then
    call_handler handler req
  else
    limit <- await_limiter opts id ;;
    set_limit_headers opts limit ;;;
    if truthy (VNum (remaining limit)) then call_handler handler req
    else throttle opts limit.

(** The request is neither deny-listed nor bypassed, its identity is
    [idv], and the counter store answers [limit]. *)
Definition limited (a : Args) (req : Request) (s : State Db)
    (idv : jsval) (limit : Limit) (db' : Db) : Prop :=
  exists wv bv,
    resolve_id (args_opts a) req = Ret idv /\
    predicate_result (opt_whitelist (args_opts a)) req = Ret wv /\
    predicate_result (opt_blacklist (args_opts a)) req = Ret bv /\
    truthy bv = false /\
    (is_false idv || truthy wv)%bool = false /\
    limiter_get (args_opts a) idv (st_db s) = (Ret limit, db').

End Middleware.

(** ** Reading a run *)

Definition predicate_events (ev : Event) (p : option Predicate) : list Event :=
  match p with
  | Some _ => [ev]
  | None => []
  end.

(** Lines 52-54: the three evaluations that open every request. *)
Definition prelude_events (o : Opts) : list Event :=
  EvResolveId ::
  predicate_events EvWhitelist (opt_whitelist o) ++
  predicate_events EvBlacklist (opt_blacklist o).

Definition is_header_write (e : Event) : bool :=
  match e with
  | EvSetHeader _ _ _ => true
  | _ => false
  end.

Definition is_limit_header_write (e : Event) : bool :=
  match e with
  | EvSetHeader HTotal _ _ | EvSetHeader HRemaining _ _ | EvSetHeader HReset _ _ => true
  | _ => false
  end.

Definition is_store_query (e : Event) : bool :=
  match e with
  | EvLimiterGet _ => true
  | _ => false
  end.

Definition is_handler_call (e : Event) : bool :=
  match e with
  | EvHandler => true
  | _ => false
  end.

Definition is_end (e : Event) : bool :=
  match e with
  | EvEnd _ => true
  | _ => false
  end.

(** The only header the middleware may still write once the rate-limit
    headers are disabled. *)
Definition only_retry_after (e : Event) : bool :=
  match e with
  | EvSetHeader HRetryAfter n _ => String.eqb n "Retry-After"
  | EvSetHeader _ _ _ => false
  | _ => true
  end.

Definition count_events (p : Event -> bool) (evs : list Event) : nat :=
  length (List.filter p evs).

(** [a] happens, and [b] happens later. *)
Fixpoint occurs_before (a b : Event) (evs : list Event) : bool :=
  match evs with
  | [] => false
  | e :: rest =>
      (bool_decide (e = a) && bool_decide (b ∈ rest)) || occurs_before a b rest
  end.

(** The response after lines 76-80. *)
Definition with_limit_headers (o : Opts) (limit : Limit) (r : Response) : Response :=
  if opt_disableHeader o then r
  else with_header (reset_name o) (VNum (reset limit))
         (with_header (remaining_name o) (VNum (calls_of limit))
            (with_header (total_name o) (VNum (total limit)) r)).

Definition limit_header_events (o : Opts) (limit : Limit) : list Event :=
  if opt_disableHeader o then []
  else [EvSetHeader HTotal (total_name o) (VNum (total limit));
        EvSetHeader HRemaining (remaining_name o) (VNum (calls_of limit));
        EvSetHeader HReset (reset_name o) (VNum (reset limit))].

(** Lines 76-80 run to their end: the headers are disabled, or the three
    configured names are HTTP tokens. *)
Definition limit_headers_settable (o : Opts) : bool :=
  (opt_disableHeader o ||
   (is_token (total_name o) && is_token (remaining_name o) && is_token (reset_name o)))%bool.

(** Lines 76-80 when they do not: the error of the first name Node
    refuses, the response and the writes made until then. *)
Definition limit_headers_refusal (o : Opts) (limit : Limit) (r : Response)
    : JsError * Response * list Event :=
  if is_token (total_name o) then
    if is_token (remaining_name o) then
      (TypeError_invalid_token (reset_name o),
       with_header (remaining_name o) (VNum (calls_of limit))
         (with_header (total_name o) (VNum (total limit)) r),
       [EvSetHeader HTotal (total_name o) (VNum (total limit));
        EvSetHeader HRemaining (remaining_name o) (VNum (calls_of limit))])
    else
      (TypeError_invalid_token (remaining_name o),
       with_header (total_name o) (VNum (total limit)) r,
       [EvSetHeader HTotal (total_name o) (VNum (total limit))])
  else (TypeError_invalid_token (total_name o), r, []).

(** The response after lines 87-89. *)
Definition throttled_response (o : Opts) (limit : Limit) (now : Z) (r : Response) : Response :=
  set_statusCode 429
    (with_header "Retry-After" (VNum (after_of limit now)) (with_limit_headers o limit r)).

Definition throttle_events (limit : Limit) (now : Z) : list Event :=
  [EvNow; EvNow; EvSetHeader HRetryAfter "Retry-After" (VNum (after_of limit now));
   EvSetStatus 429].

(** The run [r], with [evs] having happened before it. *)
Definition after_events {S A} (evs : list Event) (r : Run S A) : Run S A :=
  mkRun (outcome r) (final r) (evs ++ events r).

(** ** A concrete environment for examples

    [ms_fmtLong] follows the long format of the [ms] package; the store
    [counting_store] keeps the quota of one caller and charges one unit per
    query. *)

Definition ms_plural (ms msAbs n : Z) (name : string) : string :=
  pretty ((2 * ms + n) / (2 * n)) ++ " " ++ name ++
  (if 3 * n <=? 2 * msAbs then "s" else EmptyString).

Definition ms_fmtLong (ms : Z) : string :=
  let msAbs := Z.abs ms in
  if 86400000 <=? msAbs then ms_plural ms msAbs 86400000 "day"
  else if 3600000 <=? msAbs then ms_plural ms msAbs 3600000 "hour"
  else if 60000 <=? msAbs then ms_plural ms msAbs 60000 "minute"
  else if 1000 <=? msAbs then ms_plural ms msAbs 1000 "second"
  else pretty ms ++ " ms".

Definition counting_store (_ : Opts) (_ : jsval) (db : Limit) : Outcome Limit * Limit :=
  (Ret db,
   {| total := total db; remaining := Z.max 0 (remaining db - 1); reset := reset db |}).

Definition ok_handler : Handler :=
  fun _ res => (Ret (VStr "ok"), end_with "ok" res).

Definition proxied_request : Request :=
  {| req_headers := {[ "x-forwarded-for" := "203.0.113.7, 10.0.0.2" ]};
     req_connection := Some {| conn_remoteAddress := Some "10.0.0.1"; conn_socket := None |};
     req_socket := Some {| sock_remoteAddress := Some "10.0.0.1" |} |}.

Definition direct_request : Request :=
  {| req_headers := ∅;
     req_connection := Some {| conn_remoteAddress := Some "10.0.0.1"; conn_socket := None |};
     req_socket := Some {| sock_remoteAddress := Some "10.0.0.1" |} |}.

Definition start (db : Limit) : State Limit := mkState fresh_response db 0%nat.

Definition fixed_clock (now : Z) : nat -> Z := fun _ => now.


Definition exempting_opts : Opts :=
  {| opt_duration := None; opt_max := None;
     opt_id := Some (fun _ => Ret (VBool false));
     opt_whitelist := Some (fun _ => Ret (VBool true));
     opt_blacklist := Some (fun _ => Ret (VBool true));
     opt_headers := None; opt_disableHeader := false; opt_throw := false;
     opt_errorMessage := None |}.

Definition unlimited_opts : Opts :=
  {| opt_duration := None; opt_max := None;
     opt_id := Some (fun _ => Ret (VBool false));
     opt_whitelist := None; opt_blacklist := None;
     opt_headers := None; opt_disableHeader := false; opt_throw := false;
     opt_errorMessage := None |}.

Definition throwing_opts : Opts :=
  {| opt_duration := Some 60000; opt_max := Some 10; opt_id := None;
     opt_whitelist := None; opt_blacklist := None;
     opt_headers := None; opt_disableHeader := false; opt_throw := true;
     opt_errorMessage := None |}.

Definition quiet_opts : Opts :=
  {| opt_duration := Some 60000; opt_max := Some 10; opt_id := None;
     opt_whitelist := None; opt_blacklist := None;
     opt_headers := None; opt_disableHeader := true; opt_throw := false;
     opt_errorMessage := Some "Slow down" |}.

Definition quota (left_over closes : Z) : Limit :=
  {| total := 10; remaining := left_over; reset := closes |}.

Definition proxied_id : jsval := VStr "203.0.113.7, 10.0.0.2".

(** ** The rest of the request handling

    What follows describes the code outside the places the claims are
    about: the failures of the collaborators, [thenify], and requests
    served one after another. *)

Definition is_status (e : Event) : bool :=
  match e with
  | EvSetStatus _ => true
  | _ => false
  end.

Definition is_retry_after (e : Event) : bool :=
  match e with
  | EvSetHeader HRetryAfter _ _ => true
  | _ => false
  end.

Definition is_clock_read (e : Event) : bool :=
  match e with
  | EvNow => true
  | _ => false
  end.

(** The middleware touches the response. *)
Definition is_write (e : Event) : bool :=
  (is_header_write e || is_status e || is_end e)%bool.

(** No write to the response happens before the counter store is asked. *)
Fixpoint no_write_before_query (evs : list Event) : bool :=
  match evs with
  | [] => true
  | EvLimiterGet _ :: _ => true
  | e :: rest => (negb (is_write e) && no_write_before_query rest)%bool
  end.

(** [thenify], lines 104-113.  The argument is what the Node-style
    function does with the callback it is given: it calls it with
    [(err, res)], where [err] is [null] or an error, or it throws before
    calling it, which rejects the promise under construction. *)
Inductive NodeCall (A : Type) : Type :=
| CallsBack (err : option JsError) (res : A)
| ThrowsFirst (e : JsError).
Arguments CallsBack {A} err res.
Arguments ThrowsFirst {A} e.

Definition thenify {A : Type} (fn : NodeCall A) : Outcome A :=
  match fn with
  | CallsBack (Some e) _ => Throw e
  | CallsBack None res => Ret res
  | ThrowsFirst e => Throw e
  end.

(** [thenify(limiter.get.bind(limiter))] for a store given by its
    callback-style [get]. *)
Definition thenified {Db : Type}
    (get : Opts -> jsval -> Db -> NodeCall Limit * Db)
    (o : Opts) (id : jsval) (db : Db) : Outcome Limit * Db :=
  let '(call, db') := get o id db in (thenify call, db').

(** The request is let through without asking the store (line 62). *)
Definition bypasses (o : Opts) (req : Request) : bool :=
  match resolve_id o req,
        predicate_result (opt_whitelist o) req,
        predicate_result (opt_blacklist o) req with
  | Ret idv, Ret wv, Ret bv => (negb (truthy bv) && (is_false idv || truthy wv))%bool
  | _, _, _ => false
  end.

(** The store lets a request through (line 83). *)
Definition grants (answer : Outcome Limit) : bool :=
  match answer with
  | Ret limit => truthy (VNum (remaining limit))
  | Throw _ => false
  end.

Section Lifecycle.

Context {Db : Type}.
Variable limiter_get : Opts -> jsval -> Db -> Outcome Limit * Db.
Variable ms_long : Z -> string.
Variable clock : nat -> Z.

(** The ten ways a request can go, each with the run it produces. *)
Inductive Path (a : Args) (req : Request) (s : State Db) :
    Run (State Db) jsval -> Prop :=
| PathResolverThrows e :
    resolve_id (args_opts a) req = Throw e ->
    Path a req s (mkRun (Throw e) s [EvResolveId])
| PathWhitelistThrows idv e :
    resolve_id (args_opts a) req = Ret idv ->
    predicate_result (opt_whitelist (args_opts a)) req = Throw e ->
    Path a req s (mkRun (Throw e) s [EvResolveId; EvWhitelist])
| PathBlacklistThrows idv wv e :
    resolve_id (args_opts a) req = Ret idv ->
    predicate_result (opt_whitelist (args_opts a)) req = Ret wv ->
    predicate_result (opt_blacklist (args_opts a)) req = Throw e ->
    Path a req s
      (mkRun (Throw e) s
         (EvResolveId ::
          predicate_events EvWhitelist (opt_whitelist (args_opts a)) ++ [EvBlacklist]))
| PathDenied idv wv bv :
    resolve_id (args_opts a) req = Ret idv ->
    predicate_result (opt_whitelist (args_opts a)) req = Ret wv ->
    predicate_result (opt_blacklist (args_opts a)) req = Ret bv ->
    truthy bv = true ->
    Path a req s
      (mkRun (Throw (mkError "Error" "Forbidden" (Some 493))) s
         (prelude_events (args_opts a)))
| PathBypassed idv wv bv :
    resolve_id (args_opts a) req = Ret idv ->
    predicate_result (opt_whitelist (args_opts a)) req = Ret wv ->
    predicate_result (opt_blacklist (args_opts a)) req = Ret bv ->
    truthy bv = false ->
    (is_false idv || truthy wv)%bool = true ->
    Path a req s
      (mkRun (fst (args_handler a req (st_res s)))
         (mkState (snd (args_handler a req (st_res s))) (st_db s) (st_ticks s))
         (prelude_events (args_opts a) ++ [EvHandler]))
| PathStoreFails idv wv bv e db' :
    resolve_id (args_opts a) req = Ret idv ->
    predicate_result (opt_whitelist (args_opts a)) req = Ret wv ->
    predicate_result (opt_blacklist (args_opts a)) req = Ret bv ->
    truthy bv = false ->
    (is_false idv || truthy wv)%bool = false ->
    limiter_get (args_opts a) idv (st_db s) = (Throw e, db') ->
    Path a req s
      (mkRun (Throw e) (mkState (st_res s) db' (st_ticks s))
         (prelude_events (args_opts a) ++ [EvLimiterGet idv]))
| PathHeaderRefused idv limit db' :
    limited limiter_get a req s idv limit db' ->
    limit_headers_settable (args_opts a) = false ->
    Path a req s
      (mkRun (Throw (fst (fst (limit_headers_refusal (args_opts a) limit (st_res s)))))
         (mkState (snd (fst (limit_headers_refusal (args_opts a) limit (st_res s))))
            db' (st_ticks s))
         (prelude_events (args_opts a) ++ EvLimiterGet idv ::
          snd (limit_headers_refusal (args_opts a) limit (st_res s))))
| PathAllowed idv limit db' :
    limited limiter_get a req s idv limit db' ->
    limit_headers_settable (args_opts a) = true ->
    remaining limit <> 0 ->
    Path a req s
      (mkRun (fst (args_handler a req (with_limit_headers (args_opts a) limit (st_res s))))
         (mkState
            (snd (args_handler a req (with_limit_headers (args_opts a) limit (st_res s))))
            db' (st_ticks s))
         (prelude_events (args_opts a) ++ EvLimiterGet idv ::
          limit_header_events (args_opts a) limit ++ [EvHandler]))
| PathThrottledThrow idv limit db' :
    limited limiter_get a req s idv limit db' ->
    limit_headers_settable (args_opts a) = true ->
    remaining limit = 0 ->
    opt_throw (args_opts a) = true ->
    Path a req s
      (mkRun (Throw (with_statusCode 429 (Error_of_body (res_body (st_res s)))))
         (mkState
            (throttled_response (args_opts a) limit (clock (S (st_ticks s))) (st_res s))
            db' (S (S (st_ticks s))))
         (prelude_events (args_opts a) ++ EvLimiterGet idv ::
          limit_header_events (args_opts a) limit ++
          throttle_events limit (clock (S (st_ticks s)))))
| PathThrottledEnd idv limit db' :
    limited limiter_get a req s idv limit db' ->
    limit_headers_settable (args_opts a) = true ->
    remaining limit = 0 ->
    opt_throw (args_opts a) = false ->
    Path a req s
      (mkRun (Ret VUndefined)
         (mkState
            (end_with
               (message_or (opt_errorMessage (args_opts a))
                  (default_message ms_long (delta_of limit (clock (st_ticks s)))))
               (throttled_response (args_opts a) limit (clock (S (st_ticks s))) (st_res s)))
            db' (S (S (st_ticks s))))
         (prelude_events (args_opts a) ++ EvLimiterGet idv ::
          limit_header_events (args_opts a) limit ++
          throttle_events limit (clock (S (st_ticks s))) ++
          [EvEnd (message_or (opt_errorMessage (args_opts a))
                    (default_message ms_long (delta_of limit (clock (st_ticks s)))))])).

(** Requests served one after another, each with its own response; the
    counter store and the clock are shared. *)
Fixpoint serve (a : Args) (rs : list (Request * Response)) (db : Db) (ticks : nat)
    : list (Run (State Db) jsval) :=
  match rs with
  | [] => []
  | (req, res) :: rest =>
      let r := ratelimit limiter_get ms_long clock a req (mkState res db ticks) in
      r :: serve a rest (st_db (final r)) (st_ticks (final r))
  end.

(** The answers of the store to a series of queries. *)
Fixpoint answers (qs : list (Opts * jsval)) (db : Db) : list (Outcome Limit) :=
  match qs with
  | [] => []
  | (o, id) :: rest =>
      let '(answer, db') := limiter_get o id db in answer :: answers rest db'
  end.

(** From [db] on, the store lets at most [n] queries through. *)
Definition grants_at_most (n : nat) (db : Db) : Prop :=
  forall qs, (length (List.filter grants (answers qs db)) <= n)%nat.

End Lifecycle.

Definition handler_calls {S A : Type} (runs : list (Run S A)) : nat :=
  list_sum (List.map (fun r => count_events is_handler_call (events r)) runs).

(** More sample data. *)

Definition failing_store (e : JsError) (_ : Opts) (_ : jsval) (db : Limit)
    : Outcome Limit * Limit :=
  (Throw e, db).

Definition callback_store (err : option JsError) (_ : Opts) (_ : jsval) (db : Limit)
    : NodeCall Limit * Limit :=
  (CallsBack err db, db).

Definition redis_down : JsError :=
  {| err_name := "Error"; err_message := "Connection is closed.";
     err_statusCode := None |}.

Definition boom : JsError :=
  {| err_name := "Error"; err_message := "boom"; err_statusCode := None |}.

(** A request whose peer has gone: no forwarded-for header, no remote
    address, and no [socket] property on the connection. *)
Definition disconnected_request : Request :=
  {| req_headers := ∅;
     req_connection := Some {| conn_remoteAddress := None; conn_socket := None |};
     req_socket := Some {| sock_remoteAddress := None |} |}.

(** A request object without [connection]. *)
Definition bare_request : Request :=
  {| req_headers := ∅; req_connection := None; req_socket := None |}.

Definition bare_proxied_request : Request :=
  {| req_headers := {[ "x-forwarded-for" := "203.0.113.7" ]};
     req_connection := None; req_socket := None |}.

(** A request whose address is only known to [req.socket]. *)
Definition socket_only_request : Request :=
  {| req_headers := {[ "x-forwarded-for" := EmptyString ]};
     req_connection := Some {| conn_remoteAddress := None; conn_socket := None |};
     req_socket := Some {| sock_remoteAddress := Some "192.0.2.9" |} |}.

(** A request whose address is only known to [req.connection.socket]. *)
Definition tls_request : Request :=
  {| req_headers := ∅;
     req_connection :=
       Some {| conn_remoteAddress := None;
               conn_socket := Some {| sock_remoteAddress := Some "192.0.2.10" |} |};
     req_socket := Some {| sock_remoteAddress := None |} |}.

Definition opts_with_id (f : Predicate) : Opts :=
  {| opt_duration := None; opt_max := None; opt_id := Some f;
     opt_whitelist := None; opt_blacklist := None; opt_headers := None;
     opt_disableHeader := false; opt_throw := false; opt_errorMessage := None |}.

Definition opts_with_lists (w b : Predicate) : Opts :=
  {| opt_duration := None; opt_max := None;
     opt_id := Some (fun _ => Ret (VBool false));
     opt_whitelist := Some w; opt_blacklist := Some b; opt_headers := None;
     opt_disableHeader := false; opt_throw := false; opt_errorMessage := None |}.

Definition opts_with_headers (h : HeaderNames) : Opts :=
  {| opt_duration := None; opt_max := None; opt_id := None;
     opt_whitelist := None; opt_blacklist := None; opt_headers := Some h;
     opt_disableHeader := false; opt_throw := false; opt_errorMessage := None |}.

Definition short_names : HeaderNames :=
  {| hn_remaining := Some "X-Left"; hn_reset := None; hn_total := Some "X-Max" |}.

(** A total name with a space in it, which Node refuses. *)
Definition spaced_names : HeaderNames :=
  {| hn_remaining := None; hn_reset := None; hn_total := Some "X Max" |}.

(** ** Arithmetic of the throttling response *)

Lemma to_int32_small z : - 2 ^ 31 <= z < 2 ^ 31 -> to_int32 z = z.
Proof.
  intros Hz. unfold to_int32.
  rewrite Z.mod_small by lia. lia.
Qed.

Lemma delta_of_spec limit now :
  delta_of limit now = to_int32 (reset limit * 1000 - now).
Proof.
  unfold delta_of, js_bitor0, Qtrunc. f_equal. simpl.
  rewrite Z.quot_1_r. lia.
Qed.

Lemma after_of_spec limit now :
  after_of limit now = to_int32 (Z.quot (reset limit * 1000 - now) 1000).
Proof.
  unfold after_of, js_bitor0, Qtrunc. f_equal. simpl.
  f_equal. lia.
Qed.

(** Where the truncation of [r - now / 1000] is [r - floor (now / 1000)]:
    on a whole second, and once the window has closed. *)
Lemma quot_is_floor r now :
  now mod 1000 = 0 \/ r * 1000 <= now ->
  Z.quot (r * 1000 - now) 1000 = r - now / 1000.
Proof.
  intros Hcase.
  pose proof (Z.div_mod now 1000 ltac:(lia)) as Hnow.
  pose proof (Z.mod_pos_bound now 1000 ltac:(lia)) as Hm.
  destruct (Z.le_gt_cases (r * 1000) now) as [Hclosed | Hopen].
  - replace (r * 1000 - now) with (- (now - r * 1000)) by lia.
    rewrite Z.quot_opp_l, Z.quot_div_nonneg by lia.
    rewrite <- (Z.div_unique_pos (now - r * 1000) 1000 (now / 1000 - r) (now mod 1000));
      lia.
  - destruct Hcase as [Hz | Hle]; [|lia].
    rewrite Z.quot_div_nonneg by lia.
    rewrite <- (Z.div_unique_pos (r * 1000 - now) 1000 (r - now / 1000) 0); lia.
Qed.

(** While the window is open and [now] is not a whole second, it is one
    less. *)
Lemma quot_is_floor_minus_one r now :
  now mod 1000 <> 0 -> now < r * 1000 ->
  Z.quot (r * 1000 - now) 1000 = r - now / 1000 - 1.
Proof.
  intros Hfrac Hopen.
  pose proof (Z.div_mod now 1000 ltac:(lia)) as Hnow.
  pose proof (Z.mod_pos_bound now 1000 ltac:(lia)) as Hm.
  rewrite Z.quot_div_nonneg by lia.
  rewrite <- (Z.div_unique_pos (r * 1000 - now) 1000 (r - now / 1000 - 1)
                (1000 - now mod 1000)); lia.
Qed.

(** ** The paths through the middleware *)

Lemma after_events_app {S A} (e1 e2 : list Event) (r : Run S A) :
  after_events e1 (after_events e2 r) = after_events (e1 ++ e2) r.
Proof. unfold after_events. simpl. rewrite app_assoc. reflexivity. Qed.

Lemma bind_ret_run {Db A B} (m : M Db A) (f : A -> M Db B) s a s' evs :
  m s = mkRun (Ret a) s' evs ->
  bind m f s = after_events evs (f a s').
Proof. intros H. unfold bind. rewrite H. reflexivity. Qed.

Lemma bind_stops_early {Db A B} (m : M Db A) (f : A -> M Db B) s e s' evs :
  m s = mkRun (Throw e) s' evs ->
  bind m f s = mkRun (Throw e) s' evs.
Proof. intros H. unfold bind. rewrite H. reflexivity. Qed.

Lemma forallb_events_bind {Db A B} (P : Event -> bool)
    (m : M Db A) (f : A -> M Db B) s :
  forallb P (events (m s)) = true ->
  (forall a s', forallb P (events (f a s')) = true) ->
  forallb P (events (bind m f s)) = true.
Proof.
  intros Hm Hf. unfold bind. destruct (outcome (m s)); simpl; [|exact Hm].
  rewrite forallb_app, Hm, Hf. reflexivity.
Qed.

Lemma forallb_events_handler {Db} (P : Event -> bool) h req (s : State Db) :
  P EvHandler = true ->
  forallb P (events (call_handler h req s)) = true.
Proof.
  intros HP. unfold call_handler. destruct (h req (st_res s)). simpl.
  rewrite HP. reflexivity.
Qed.

Section Paths.

Context {Db : Type}.
Variable limiter_get : Opts -> jsval -> Db -> Outcome Limit * Db.
Variable ms_long : Z -> string.
Variable clock : nat -> Z.

Abbreviation run := (ratelimit limiter_get ms_long clock).

Lemma await_predicate_ret ev p req v (s : State Db) :
  predicate_result p req = Ret v ->
  await_predicate ev p req s = mkRun (Ret v) s (predicate_events ev p).
Proof. destruct p; simpl; intros H; [unfold await | unfold ret]; congruence. Qed.

Lemma setHeader_accepted role name v (s : State Db) :
  is_token name = true ->
  setHeader role name v s =
  mkRun (Ret tt) (mkState (with_header name v (st_res s)) (st_db s) (st_ticks s))
        [EvSetHeader role name v].
Proof. intros H. unfold setHeader. rewrite H. reflexivity. Qed.

Lemma setHeader_refused role name v (s : State Db) :
  is_token name = false ->
  setHeader role name v s = mkRun (Throw (TypeError_invalid_token name)) s [].
Proof. intros H. unfold setHeader. rewrite H. reflexivity. Qed.

Lemma set_limit_headers_run o limit (s : State Db) :
  limit_headers_settable o = true ->
  set_limit_headers o limit s =
  mkRun (Ret tt)
        (mkState (with_limit_headers o limit (st_res s)) (st_db s) (st_ticks s))
        (limit_header_events o limit).
Proof.
  unfold limit_headers_settable, set_limit_headers, with_limit_headers,
    limit_header_events.
  destruct (opt_disableHeader o); simpl; [intros _; destruct s; reflexivity|].
  intros H. apply andb_prop in H as [H Hrs]. apply andb_prop in H as [Ht Hr].
  erewrite bind_ret_run by (apply setHeader_accepted, Ht).
  erewrite bind_ret_run by (apply setHeader_accepted, Hr).
  rewrite setHeader_accepted by exact Hrs. reflexivity.
Qed.

Lemma set_limit_headers_refused o limit (s : State Db) :
  limit_headers_settable o = false ->
  set_limit_headers o limit s =
  mkRun (Throw (fst (fst (limit_headers_refusal o limit (st_res s)))))
        (mkState (snd (fst (limit_headers_refusal o limit (st_res s))))
                 (st_db s) (st_ticks s))
        (snd (limit_headers_refusal o limit (st_res s))).
Proof.
  unfold limit_headers_settable, set_limit_headers, limit_headers_refusal.
  destruct (opt_disableHeader o); simpl; [discriminate|].
  destruct (is_token (total_name o)) eqn:Ht; simpl.
  - erewrite bind_ret_run by (apply setHeader_accepted, Ht).
    destruct (is_token (remaining_name o)) eqn:Hr; simpl.
    + intros Hrs.
      erewrite bind_ret_run by (apply setHeader_accepted, Hr).
      rewrite setHeader_refused by exact Hrs. reflexivity.
    + intros _. erewrite bind_stops_early by (apply setHeader_refused, Hr).
      reflexivity.
  - intros _. erewrite bind_stops_early by (apply setHeader_refused, Ht).
    destruct s; reflexivity.
Qed.

Variables (a : Args) (req : Request) (s : State Db).
Variables (idv wv bv : jsval).
Hypothesis Hid : resolve_id (args_opts a) req = Ret idv.
Hypothesis Hwl : predicate_result (opt_whitelist (args_opts a)) req = Ret wv.
Hypothesis Hbl : predicate_result (opt_blacklist (args_opts a)) req = Ret bv.

(** Lines 52-54. *)
Lemma run_prelude :
  run a req s =
  after_events (prelude_events (args_opts a))
    ((if truthy bv then
        raise (with_statusCode 493 (new_Error "Forbidden"))
      else if (is_false idv || truthy wv)%bool then
        call_handler (args_handler a) req
      else
        limit <- await_limiter limiter_get (args_opts a) idv ;;
        set_limit_headers (args_opts a) limit ;;;
        if truthy (VNum (remaining limit)) then call_handler (args_handler a) req
        else throttle ms_long clock (args_opts a) limit) s).
Proof.
  unfold ratelimit.
  erewrite bind_ret_run by (unfold await; rewrite Hid; reflexivity).
  erewrite bind_ret_run by (apply await_predicate_ret, Hwl).
  erewrite bind_ret_run by (apply await_predicate_ret, Hbl).
  rewrite !after_events_app. reflexivity.
Qed.

(** Lines 56-60. *)
Lemma run_denied :
  truthy bv = true ->
  run a req s =
  mkRun (Throw (mkError "Error" "Forbidden" (Some 493))) s
        (prelude_events (args_opts a)).
Proof.
  intros Hb. rewrite run_prelude, Hb.
  unfold raise, after_events. simpl. rewrite app_nil_r. reflexivity.
Qed.

(** Line 62. *)
Lemma run_bypassed :
  truthy bv = false ->
  (is_false idv || truthy wv)%bool = true ->
  run a req s =
  mkRun (fst (args_handler a req (st_res s)))
        (mkState (snd (args_handler a req (st_res s))) (st_db s) (st_ticks s))
        (prelude_events (args_opts a) ++ [EvHandler]).
Proof.
  intros Hb Hby. rewrite run_prelude, Hb, Hby.
  unfold call_handler, after_events.
  destruct (args_handler a req (st_res s)) as [o r]. reflexivity.
Qed.

Variables (limit : Limit) (db' : Db).
Hypothesis Hnb : truthy bv = false.
Hypothesis Hnw : (is_false idv || truthy wv)%bool = false.
Hypothesis Hget : limiter_get (args_opts a) idv (st_db s) = (Ret limit, db').

(** Lines 76-80 when Node refuses a configured name. *)
Lemma run_headers_refused :
  limit_headers_settable (args_opts a) = false ->
  run a req s =
  mkRun (Throw (fst (fst (limit_headers_refusal (args_opts a) limit (st_res s)))))
        (mkState (snd (fst (limit_headers_refusal (args_opts a) limit (st_res s))))
                 db' (st_ticks s))
        (prelude_events (args_opts a) ++ EvLimiterGet idv ::
         snd (limit_headers_refusal (args_opts a) limit (st_res s))).
Proof.
  intros Hno. rewrite run_prelude, Hnb, Hnw.
  erewrite bind_ret_run by (unfold await_limiter; rewrite Hget; reflexivity).
  erewrite bind_stops_early by (apply set_limit_headers_refused, Hno).
  unfold after_events. cbn [outcome final events st_res st_db st_ticks].
  reflexivity.
Qed.

Hypothesis Hset : limit_headers_settable (args_opts a) = true.

(** Lines 65-83, up to the decision. *)
Lemma run_limited :
  run a req s =
  after_events
    (prelude_events (args_opts a) ++ EvLimiterGet idv ::
     limit_header_events (args_opts a) limit)
    ((if truthy (VNum (remaining limit))
      then call_handler (args_handler a) req
      else throttle ms_long clock (args_opts a) limit)
       (mkState (with_limit_headers (args_opts a) limit (st_res s)) db' (st_ticks s))).
Proof.
  rewrite run_prelude, Hnb, Hnw.
  erewrite bind_ret_run by (unfold await_limiter; rewrite Hget; reflexivity).
  erewrite bind_ret_run by (apply set_limit_headers_run, Hset).
  rewrite !after_events_app, <- app_assoc. reflexivity.
Qed.

(** Line 83. *)
Lemma run_allowed :
  remaining limit <> 0 ->
  run a req s =
  let res := with_limit_headers (args_opts a) limit (st_res s) in
  mkRun (fst (args_handler a req res))
        (mkState (snd (args_handler a req res)) db' (st_ticks s))
        (prelude_events (args_opts a) ++ EvLimiterGet idv ::
         limit_header_events (args_opts a) limit ++ [EvHandler]).
Proof.
  intros Hr. rewrite run_limited. simpl.
  destruct (Z.eqb_spec (remaining limit) 0) as [|_]; [contradiction|]. simpl.
  unfold call_handler, after_events. simpl.
  destruct (args_handler a req _) as [o r]. simpl.
  f_equal. rewrite <- app_assoc. reflexivity.
Qed.

(** Lines 85-95 with [opts.throw]. *)
Lemma run_throttled_throw :
  remaining limit = 0 ->
  opt_throw (args_opts a) = true ->
  run a req s =
  let now := clock (S (st_ticks s)) in
  mkRun (Throw (with_statusCode 429 (Error_of_body (res_body (st_res s)))))
        (mkState (throttled_response (args_opts a) limit now (st_res s)) db'
                 (S (S (st_ticks s))))
        (prelude_events (args_opts a) ++ EvLimiterGet idv ::
         limit_header_events (args_opts a) limit ++ throttle_events limit now).
Proof.
  intros Hr Ht. rewrite run_limited. simpl. rewrite Hr. simpl.
  unfold throttle, setHeader, bind, Date_now, on_res, get_res, raise, after_events. simpl.
  rewrite Ht. simpl. f_equal.
  - unfold with_limit_headers. destruct (opt_disableHeader (args_opts a)); reflexivity.
  - rewrite <- app_assoc. reflexivity.
Qed.

(** Lines 85-96 without [opts.throw]. *)
Lemma run_throttled_end :
  remaining limit = 0 ->
  opt_throw (args_opts a) = false ->
  run a req s =
  let now := clock (S (st_ticks s)) in
  let chunk := message_or (opt_errorMessage (args_opts a))
                          (default_message ms_long (delta_of limit (clock (st_ticks s)))) in
  mkRun (Ret VUndefined)
        (mkState (end_with chunk (throttled_response (args_opts a) limit now (st_res s)))
                 db' (S (S (st_ticks s))))
        (prelude_events (args_opts a) ++ EvLimiterGet idv ::
         limit_header_events (args_opts a) limit ++ throttle_events limit now ++
         [EvEnd chunk]).
Proof.
  intros Hr Ht. rewrite run_limited. simpl. rewrite Hr. simpl.
  unfold throttle, setHeader, bind, Date_now, on_res, get_res, ret, after_events. simpl.
  rewrite Ht. simpl. f_equal.
  rewrite <- app_assoc. reflexivity.
Qed.

End Paths.

(** ** Counting events *)

Lemma count_events_app p e1 e2 :
  count_events p (e1 ++ e2) = (count_events p e1 + count_events p e2)%nat.
Proof. unfold count_events. rewrite List.filter_app, length_app. reflexivity. Qed.

Lemma count_events_cons p e evs :
  count_events p (e :: evs) = ((if p e then 1 else 0) + count_events p evs)%nat.
Proof. unfold count_events. simpl. destruct (p e); reflexivity. Qed.

Lemma count_prelude p o :
  p EvResolveId = false -> p EvWhitelist = false -> p EvBlacklist = false ->
  count_events p (prelude_events o) = 0%nat.
Proof.
  intros H1 H2 H3. unfold prelude_events, predicate_events, count_events.
  destruct (opt_whitelist o), (opt_blacklist o); simpl; rewrite H1, ?H2, ?H3; reflexivity.
Qed.

Lemma count_limit_headers p o limit :
  (forall role n v, role <> HRetryAfter -> p (EvSetHeader role n v) = false) ->
  count_events p (limit_header_events o limit) = 0%nat.
Proof.
  intros H. unfold limit_header_events, count_events.
  destruct (opt_disableHeader o); simpl; [reflexivity|].
  rewrite !H by discriminate. reflexivity.
Qed.

Lemma getHeader_with_header name v r : getHeader name (with_header name v r) = Some v.
Proof. unfold getHeader, with_header. simpl. apply lookup_insert_eq. Qed.

Lemma getHeader_with_header_ne name name' v r :
  toLowerCase name' <> toLowerCase name ->
  getHeader name (with_header name' v r) = getHeader name r.
Proof. intros H. unfold getHeader, with_header. simpl. apply lookup_insert_ne, H. Qed.

Lemma throttled_response_keeps o limit now r :
  res_body (throttled_response o limit now r) = res_body r /\
  res_ended (throttled_response o limit now r) = res_ended r.
Proof.
  unfold throttled_response, with_limit_headers.
  destruct (opt_disableHeader o); split; reflexivity.
Qed.

(** ** The claims *)

Section Claims.

Context {Db : Type}.
Variable limiter_get : Opts -> jsval -> Db -> Outcome Limit * Db.
Variable ms_long : Z -> string.
Variable clock : nat -> Z.

Abbreviation run := (ratelimit limiter_get ms_long clock).

(** The throttling path, whichever way it ends. *)
Lemma run_throttled a req s idv limit db' :
  limited limiter_get a req s idv limit db' ->
  limit_headers_settable (args_opts a) = true ->
  remaining limit = 0 ->
  let now := clock (S (st_ticks s)) in
  exists tail : list Event,
    events (run a req s) =
      (prelude_events (args_opts a) ++ EvLimiterGet idv ::
       limit_header_events (args_opts a) limit ++ throttle_events limit now ++ tail)%list /\
    (tail = [] \/ exists chunk, tail = [EvEnd chunk]) /\
    res_statusCode (st_res (final (run a req s))) = 429 /\
    getHeader "Retry-After" (st_res (final (run a req s))) =
      Some (VNum (after_of limit now)).
Proof.
  intros (wv & bv & Hid & Hwl & Hbl & Hnb & Hnw & Hget) Hset Hr now.
  destruct (opt_throw (args_opts a)) eqn:Ht.
  - rewrite (run_throttled_throw _ _ _ _ _ _ _ _ _ Hid Hwl Hbl _ _ Hnb Hnw Hget Hset Hr Ht).
    exists []. simpl.
    repeat split; [left; reflexivity | apply getHeader_with_header].
  - rewrite (run_throttled_end _ _ _ _ _ _ _ _ _ Hid Hwl Hbl _ _ Hnb Hnw Hget Hset Hr Ht).
    eexists [_]. simpl.
    repeat split; [right; eexists; reflexivity | apply getHeader_with_header].
Qed.

(** C1 (amended): when the counter store answers [remaining = 0] for a
    request that is neither bypassed nor deny-listed, and the rate-limit
    headers are disabled or configured with names Node accepts, the
    response status is 429, the downstream handler is not invoked, and
    [Retry-After] is [reset - now/1000] truncated toward zero to a 32-bit
    integer.  That is [reset - floor(now/1000)] when [now] is a whole
    number of seconds or the window has closed, and one less while the
    window is open and [now] is not a whole second; for the store response
    [{total:10, remaining:0, reset:T}] observed at [now = (T-5)*1000] the
    header is 5. *)
Theorem C1_throttled_status_and_retry_after a req s idv limit db' :
  limited limiter_get a req s idv limit db' ->
  limit_headers_settable (args_opts a) = true ->
  remaining limit = 0 ->
  let r := run a req s in
  let now := clock (S (st_ticks s)) in
  let retry_after := getHeader "Retry-After" (st_res (final r)) in
  res_statusCode (st_res (final r)) = 429 /\
  retry_after = Some (VNum (to_int32 (Z.quot (reset limit * 1000 - now) 1000))) /\
  (now mod 1000 = 0 \/ reset limit * 1000 <= now ->
   - 2 ^ 31 <= reset limit - now / 1000 < 2 ^ 31 ->
   retry_after = Some (VNum (reset limit - now / 1000))) /\
  (now mod 1000 <> 0 -> now < reset limit * 1000 ->
   reset limit - now / 1000 - 1 < 2 ^ 31 ->
   retry_after = Some (VNum (reset limit - now / 1000 - 1))) /\
  (total limit = 10 -> now = (reset limit - 5) * 1000 ->
   retry_after = Some (VNum 5)) /\
  count_events is_handler_call (events r) = 0%nat.
Proof.
  intros Hl Hset Hr r now retry_after.
  destruct (run_throttled _ _ _ _ _ _ Hl Hset Hr) as (tail & Hev & Htail & Hst & Hra).
  fold r now in Hev, Hst, Hra. fold retry_after in Hra.
  rewrite after_of_spec in Hra.
  split; [exact Hst|]. split; [exact Hra|]. split; [|split; [|split]].
  - intros Hcase Hrange. rewrite Hra, quot_is_floor by exact Hcase.
    rewrite to_int32_small by exact Hrange. reflexivity.
  - intros Hfrac Hopen Hrange.
    rewrite Hra, quot_is_floor_minus_one by assumption.
    rewrite to_int32_small; [reflexivity|].
    pose proof (Z.div_mod now 1000 ltac:(lia)).
    pose proof (Z.mod_pos_bound now 1000 ltac:(lia)). lia.
  - intros _ Hnow. rewrite Hra, Hnow.
    replace (reset limit * 1000 - (reset limit - 5) * 1000) with (5 * 1000) by lia.
    rewrite Z.quot_mul by lia. reflexivity.
  - rewrite Hev, count_events_app, count_events_cons, !count_events_app.
    rewrite count_prelude by reflexivity.
    rewrite count_limit_headers by reflexivity.
    destruct Htail as [-> | [chunk ->]]; reflexivity.
Qed.

(** Every run that reaches the counter store and sets its headers: what
    happens after the headers is the handler call or the throttling
    response. *)
Lemma run_limited_events a req s idv limit db' :
  limited limiter_get a req s idv limit db' ->
  limit_headers_settable (args_opts a) = true ->
  exists tail : list Event,
    events (run a req s) =
      (prelude_events (args_opts a) ++ EvLimiterGet idv ::
       limit_header_events (args_opts a) limit ++ tail)%list /\
    forall role n v, EvSetHeader role n v ∈ tail -> role = HRetryAfter.
Proof.
  intros Hl Hset.
  destruct (Z.eq_dec (remaining limit) 0) as [Hr | Hr].
  - destruct (run_throttled _ _ _ _ _ _ Hl Hset Hr) as (tail & Hev & Htail & _).
    eexists. split; [exact Hev|].
    intros role n v Hin. simpl in Hin.
    rewrite !elem_of_cons in Hin.
    destruct Hin as [Hin | [Hin | [Hin | [Hin | Hin]]]]; try discriminate.
    + congruence.
    + destruct Htail as [-> | [chunk ->]].
      * apply elem_of_nil in Hin. contradiction.
      * apply list_elem_of_singleton in Hin. discriminate.
  - destruct Hl as (wv & bv & Hid & Hwl & Hbl & Hnb & Hnw & Hget).
    rewrite (run_allowed _ _ _ _ _ _ _ _ _ Hid Hwl Hbl _ _ Hnb Hnw Hget Hset Hr).
    exists [EvHandler]. split; [reflexivity|].
    intros role n v Hin. apply list_elem_of_singleton in Hin. discriminate.
Qed.

Lemma prelude_no_header_write o role n v :
  EvSetHeader role n v ∉ prelude_events o.
Proof.
  unfold prelude_events, predicate_events.
  destruct (opt_whitelist o), (opt_blacklist o); simpl;
    rewrite ?not_elem_of_cons, elem_of_nil; intuition discriminate.
Qed.

Lemma header_write_after_query o idv (ws : list Event) role n v :
  EvSetHeader role n v ∈ (prelude_events o ++ EvLimiterGet idv :: ws)%list <->
  EvSetHeader role n v ∈ ws.
Proof.
  rewrite elem_of_app, elem_of_cons. split; [|auto].
  intros [Hin | [Hin | Hin]]; [|discriminate|exact Hin].
  exfalso. exact (prelude_no_header_write _ _ _ _ Hin).
Qed.

(** The writes under the remaining role, whether or not Node accepts the
    configured names. *)
Lemma remaining_writes a req s idv limit db' n v :
  limited limiter_get a req s idv limit db' ->
  EvSetHeader HRemaining n v ∈ events (run a req s) <->
  opt_disableHeader (args_opts a) = false /\
  is_token (total_name (args_opts a)) = true /\
  is_token (remaining_name (args_opts a)) = true /\
  n = remaining_name (args_opts a) /\ v = VNum (calls_of limit).
Proof.
  intros Hl.
  destruct (limit_headers_settable (args_opts a)) eqn:Hset.
  - destruct (run_limited_events _ _ _ _ _ _ Hl Hset) as (tail & Hev & Htail).
    rewrite Hev, header_write_after_query, elem_of_app.
    unfold limit_headers_settable in Hset. unfold limit_header_events.
    destruct (opt_disableHeader (args_opts a)).
    + rewrite elem_of_nil. split; [intros [[] | Hin] | intros [? _]; discriminate].
      apply Htail in Hin. discriminate.
    + simpl in Hset. apply andb_prop in Hset as [Hset _].
      apply andb_prop in Hset as [Ht Hr]. rewrite Ht, Hr.
      rewrite !elem_of_cons, elem_of_nil. split.
      * intros [[Hin | [Hin | [Hin | []]]] | Hin]; try discriminate.
        { injection Hin as -> ->. auto. }
        apply Htail in Hin. discriminate.
      * intros (_ & _ & _ & -> & ->). left. right. left. reflexivity.
  - destruct Hl as (wv & bv & Hid & Hwl & Hbl & Hnb & Hnw & Hget).
    rewrite (run_headers_refused _ _ _ _ _ _ _ _ _ Hid Hwl Hbl _ _ Hnb Hnw Hget Hset).
    cbn [events]. rewrite header_write_after_query.
    unfold limit_headers_settable in Hset. unfold limit_headers_refusal.
    destruct (opt_disableHeader (args_opts a)); [discriminate|].
    destruct (is_token (total_name (args_opts a))),
             (is_token (remaining_name (args_opts a))); cbn [snd];
      rewrite ?elem_of_cons, elem_of_nil;
      (split;
       [intros Hin; repeat (destruct Hin as [Hin | Hin]);
        try discriminate; try contradiction;
        try (injection Hin as -> ->; auto)
       |intros (_ & Ht & Hr & Hn & Hv); try discriminate; subst; auto]).
Qed.

(** C2: for a request that is neither bypassed nor deny-listed, the value
    written to the remaining header is [remaining - 1] when the store
    answers [remaining > 0] and [0] otherwise, and it is never negative.
    Every write under the remaining name carries that value; the write
    takes place when the headers are enabled and Node accepts the total
    and remaining names; and the value is what the handler, or the
    throttled response, shows under the remaining name unless the reset
    name or [Retry-After] is the same header. *)
Theorem C2_remaining_header_value a req s idv limit db' :
  limited limiter_get a req s idv limit db' ->
  let o := args_opts a in
  let r := run a req s in
  (forall n v, EvSetHeader HRemaining n v ∈ events r -> v = VNum (calls_of limit)) /\
  (opt_disableHeader o = false ->
   is_token (total_name o) = true -> is_token (remaining_name o) = true ->
   EvSetHeader HRemaining (remaining_name o) (VNum (calls_of limit)) ∈ events r) /\
  (opt_disableHeader o = false ->
   limit_headers_settable o = true ->
   toLowerCase (reset_name o) <> toLowerCase (remaining_name o) ->
   (remaining limit <> 0 ->
    let res := with_limit_headers o limit (st_res s) in
    outcome r = fst (args_handler a req res) /\
    st_res (final r) = snd (args_handler a req res) /\
    getHeader (remaining_name o) res = Some (VNum (calls_of limit))) /\
   (remaining limit = 0 ->
    toLowerCase "Retry-After" <> toLowerCase (remaining_name o) ->
    getHeader (remaining_name o) (st_res (final r)) = Some (VNum (calls_of limit)))) /\
  (0 < remaining limit -> calls_of limit = remaining limit - 1) /\
  (remaining limit <= 0 -> calls_of limit = 0) /\
  0 <= calls_of limit.
Proof.
  intros Hl o r.
  split; [|split; [|split;
    [|unfold calls_of; destruct (Z.ltb_spec 0 (remaining limit)); lia]]].
  - intros n v Hin. apply (remaining_writes _ _ _ _ _ _ _ _ Hl) in Hin.
    apply Hin.
  - intros Hd Ht Hr. apply (remaining_writes _ _ _ _ _ _ _ _ Hl). auto.
  - intros Hd Hset Hne.
    assert (Hseen : getHeader (remaining_name o) (with_limit_headers o limit (st_res s))
                    = Some (VNum (calls_of limit))).
    { unfold with_limit_headers. rewrite Hd.
      rewrite getHeader_with_header_ne by exact Hne. apply getHeader_with_header. }
    pose proof Hl as (wv & bv & Hid & Hwl & Hbl & Hnb & Hnw & Hget).
    split.
    + intros Hr res. unfold r.
      rewrite (run_allowed _ _ _ _ _ _ _ _ _ Hid Hwl Hbl _ _ Hnb Hnw Hget Hset Hr).
      repeat split. exact Hseen.
    + intros Hr Hra.
      assert (Hthr : forall now,
                getHeader (remaining_name o) (throttled_response o limit now (st_res s))
                = Some (VNum (calls_of limit))).
      { intros now. unfold throttled_response, getHeader, set_statusCode.
        cbn [res_headers with_header].
        rewrite lookup_insert_ne by exact Hra. exact Hseen. }
      unfold r. destruct (opt_throw (args_opts a)) eqn:Hth.
      * rewrite (run_throttled_throw _ _ _ _ _ _ _ _ _ Hid Hwl Hbl _ _ Hnb Hnw Hget Hset Hr Hth).
        apply Hthr.
      * rewrite (run_throttled_end _ _ _ _ _ _ _ _ _ Hid Hwl Hbl _ _ Hnb Hnw Hget Hset Hr Hth).
        apply Hthr.
Qed.

(** C3: when the blacklist predicate answers a true value, the middleware
    fails with the error [Forbidden] carrying status code 493, invokes
    neither the downstream handler nor the counter store, and leaves the
    response alone, whatever the whitelist predicate and the identity
    resolver answer (the sentinel [false] included). *)
Theorem C3_blacklisted_is_forbidden a req s idv wv bv :
  resolve_id (args_opts a) req = Ret idv ->
  predicate_result (opt_whitelist (args_opts a)) req = Ret wv ->
  predicate_result (opt_blacklist (args_opts a)) req = Ret bv ->
  truthy bv = true ->
  let r := run a req s in
  outcome r = Throw (mkError "Error" "Forbidden" (Some 493)) /\
  count_events is_handler_call (events r) = 0%nat /\
  count_events is_store_query (events r) = 0%nat /\
  final r = s.
Proof.
  intros Hid Hwl Hbl Hb r. unfold r.
  rewrite (run_denied _ _ _ _ _ _ _ _ _ Hid Hwl Hbl Hb).
  cbn [outcome final events].
  rewrite !count_prelude by reflexivity.
  repeat split; reflexivity.
Qed.

(** C4: when the request is not deny-listed and the identity resolver
    answers [false] or the whitelist predicate answers a true value, the
    middleware calls the downstream handler on the untouched response and
    returns its result; it does not query the counter store and sets no
    header. *)
Theorem C4_bypass_calls_handler_directly a req s idv wv bv :
  resolve_id (args_opts a) req = Ret idv ->
  predicate_result (opt_whitelist (args_opts a)) req = Ret wv ->
  predicate_result (opt_blacklist (args_opts a)) req = Ret bv ->
  truthy bv = false ->
  idv = VBool false \/ truthy wv = true ->
  let r := run a req s in
  outcome r = fst (args_handler a req (st_res s)) /\
  st_res (final r) = snd (args_handler a req (st_res s)) /\
  st_db (final r) = st_db s /\
  count_events is_handler_call (events r) = 1%nat /\
  count_events is_store_query (events r) = 0%nat /\
  count_events is_header_write (events r) = 0%nat.
Proof.
  intros Hid Hwl Hbl Hb Hby r. unfold r.
  assert (Hby' : (is_false idv || truthy wv)%bool = true).
  { destruct Hby as [-> | ->]; [reflexivity | apply orb_true_r]. }
  rewrite (run_bypassed _ _ _ _ _ _ _ _ _ Hid Hwl Hbl Hb Hby').
  cbn [outcome final events st_res st_db].
  rewrite !count_events_app, !count_prelude by reflexivity.
  repeat split; reflexivity.
Qed.

(** C5: for a request that is neither bypassed nor deny-listed, with the
    default header names and the store response
    [{total:10, remaining:3, reset:T}], the middleware sets
    [X-RateLimit-Limit: 10], [X-RateLimit-Remaining: 2] and
    [X-RateLimit-Reset: T], then invokes the downstream handler. *)
Theorem C5_headers_round_trip a req s idv T db' :
  limited limiter_get a req s idv {| total := 10; remaining := 3; reset := T |} db' ->
  opt_headers (args_opts a) = None ->
  opt_disableHeader (args_opts a) = false ->
  let r := run a req s in
  let res :=
    with_header "X-RateLimit-Reset" (VNum T)
      (with_header "X-RateLimit-Remaining" (VNum 2)
         (with_header "X-RateLimit-Limit" (VNum 10) (st_res s))) in
  List.filter is_header_write (events r) =
    [EvSetHeader HTotal "X-RateLimit-Limit" (VNum 10);
     EvSetHeader HRemaining "X-RateLimit-Remaining" (VNum 2);
     EvSetHeader HReset "X-RateLimit-Reset" (VNum T)] /\
  getHeader "X-RateLimit-Limit" res = Some (VNum 10) /\
  getHeader "X-RateLimit-Remaining" res = Some (VNum 2) /\
  getHeader "X-RateLimit-Reset" res = Some (VNum T) /\
  List.filter is_handler_call (events r) = [EvHandler] /\
  outcome r = fst (args_handler a req res) /\
  st_res (final r) = snd (args_handler a req res).
Proof.
  intros (wv & bv & Hid & Hwl & Hbl & Hnb & Hnw & Hget) Hh Hd r res.
  assert (Hset : limit_headers_settable (args_opts a) = true).
  { unfold limit_headers_settable, total_name, remaining_name, reset_name, name_of.
    rewrite Hh, Hd. reflexivity. }
  unfold r.
  rewrite (run_allowed _ _ _ _ _ _ _ _ _ Hid Hwl Hbl _ _ Hnb Hnw Hget Hset)
    by (simpl; lia).
  unfold with_limit_headers, limit_header_events.
  unfold total_name, remaining_name, reset_name, name_of. rewrite Hh, Hd.
  cbn [outcome final events st_res total remaining reset].
  change (calls_of {| total := 10; remaining := 3; reset := T |}) with 2.
  fold res.
  assert (Hpre : forall p, p EvResolveId = false -> p EvWhitelist = false ->
                 p EvBlacklist = false ->
                 List.filter p (prelude_events (args_opts a)) = []).
  { intros p H1 H2 H3. apply length_zero_iff_nil.
    apply (count_prelude p _ H1 H2 H3). }
  rewrite !List.filter_app, !Hpre by reflexivity.
  repeat split; try reflexivity; unfold res.
  - rewrite !getHeader_with_header_ne by (vm_compute; discriminate).
    apply getHeader_with_header.
  - rewrite getHeader_with_header_ne by (vm_compute; discriminate).
    apply getHeader_with_header.
  - apply getHeader_with_header.
Qed.


(** C7: without a custom resolver, the identity is the X-Forwarded-For
    header, verbatim, when that header is not empty, and otherwise the
    remote address of the raw connection; the first value that is not
    empty wins. *)
Theorem C7_default_identity o req :
  opt_id o = None ->
  (forall xff, req_headers req !! "x-forwarded-for" = Some xff -> xff <> EmptyString ->
     resolve_id o req = Ret (VStr xff)) /\
  (forall c addr,
     req_headers req !! "x-forwarded-for" = None \/
     req_headers req !! "x-forwarded-for" = Some EmptyString ->
     req_connection req = Some c -> conn_remoteAddress c = Some addr -> addr <> EmptyString ->
     resolve_id o req = Ret (VStr addr)) /\
  (forall v, resolve_id o req = Ret v ->
     v = of_prop (req_headers req !! "x-forwarded-for") \/
     (exists c, req_connection req = Some c /\ v = of_prop (conn_remoteAddress c)) \/
     (exists sk, req_socket req = Some sk /\ v = of_prop (sock_remoteAddress sk)) \/
     (exists c sk, req_connection req = Some c /\ conn_socket c = Some sk /\
                   v = of_prop (sock_remoteAddress sk))).
Proof.
  intros Ho. unfold resolve_id. rewrite Ho. unfold keyGenerator.
  split; [|split].
  - intros xff Hx Hne. rewrite Hx. simpl.
    destruct (String.eqb_spec xff EmptyString); [contradiction | reflexivity].
  - intros c addr Hx Hc Ha Hne.
    assert (Hf : truthy (of_prop (req_headers req !! "x-forwarded-for")) = false)
      by (destruct Hx as [-> | ->]; reflexivity).
    unfold or_else at 1. rewrite Hf, Hc. simpl. rewrite Ha. simpl.
    destruct (String.eqb_spec addr EmptyString); [contradiction | reflexivity].
  - intros v. simpl.
    destruct (truthy (of_prop (req_headers req !! "x-forwarded-for"))).
    { intros [= <-]. left. reflexivity. }
    destruct (req_connection req) as [c|]; simpl; [|discriminate].
    destruct (truthy (of_prop (conn_remoteAddress c))).
    { intros [= <-]. right. left. eauto. }
    destruct (req_socket req) as [sk|]; simpl; [|discriminate].
    destruct (truthy (of_prop (sock_remoteAddress sk))).
    { intros [= <-]. right. right. left. eauto. }
    destruct (conn_socket c) as [cs|] eqn:Hcs; simpl; [|discriminate].
    intros [= <-]. right. right. right. exists c, cs. auto.
Qed.

Ltac next_step := apply forallb_events_bind; [reflexivity | intros ? ?].

(** Every run, whatever the collaborators answer or throw, once the
    rate-limit headers are disabled. *)
Lemma disabled_headers_run a req s :
  opt_disableHeader (args_opts a) = true ->
  forallb only_retry_after (events (run a req s)) = true.
Proof.
  intros Hd. unfold ratelimit.
  apply forallb_events_bind; [reflexivity | intros idv s1].
  apply forallb_events_bind;
    [destruct (opt_whitelist (args_opts a)); reflexivity | intros wv s2].
  apply forallb_events_bind;
    [destruct (opt_blacklist (args_opts a)); reflexivity | intros bv s3].
  destruct (truthy bv); [reflexivity|].
  destruct (is_false idv || truthy wv)%bool; [apply forallb_events_handler; reflexivity|].
  apply forallb_events_bind.
  { unfold await_limiter. destruct (limiter_get _ _ _). reflexivity. }
  intros limit s4.
  apply forallb_events_bind.
  { rewrite set_limit_headers_run
      by (unfold limit_headers_settable; rewrite Hd; reflexivity).
    unfold limit_header_events. rewrite Hd. reflexivity. }
  intros _ s5.
  destruct (truthy (VNum (remaining limit))); [apply forallb_events_handler; reflexivity|].
  unfold throttle.
  do 4 next_step.
  destruct (opt_throw (args_opts a)); next_step; reflexivity.
Qed.

(** C8: with [disableHeader] set, none of the three rate-limit headers
    (total, remaining, reset) is set, whatever the outcome of the
    request; the only header the middleware may write is [Retry-After]. *)
Theorem C8_disableHeader_sets_no_limit_header a req s :
  opt_disableHeader (args_opts a) = true ->
  let r := run a req s in
  count_events is_limit_header_write (events r) = 0%nat /\
  (forall role n v, EvSetHeader role n v ∈ events r ->
     role = HRetryAfter /\ n = "Retry-After").
Proof.
  intros Hd r. pose proof (disabled_headers_run a req s Hd) as Hall.
  fold r in Hall. rewrite forallb_forall in Hall.
  split.
  - unfold count_events. apply length_zero_iff_nil.
    destruct (List.filter is_limit_header_write (events r)) as [|e l] eqn:Hf;
      [reflexivity|].
    assert (Hin : In e (List.filter is_limit_header_write (events r)))
      by (rewrite Hf; left; reflexivity).
    apply filter_In in Hin. destruct Hin as [Hin He].
    apply Hall in Hin. destruct e as [| | | |[] ? ?| | | |]; discriminate.
  - intros role n v Hin. apply list_elem_of_In, Hall in Hin.
    destruct role; try discriminate. simpl in Hin.
    apply String.eqb_eq in Hin. auto.
Qed.

(** C9 (amended): the identity is resolved first and the whitelist
    predicate is evaluated next, both before the blacklist predicate; the
    deny-list decision is then taken before the bypass decision, so that a
    blacklisted caller is rejected with [Forbidden] even when the identity
    resolver answers the disabling sentinel [false] or the caller is
    whitelisted. *)
Theorem C9_deny_decision_precedes_bypass a req s idv wv bv :
  resolve_id (args_opts a) req = Ret idv ->
  predicate_result (opt_whitelist (args_opts a)) req = Ret wv ->
  predicate_result (opt_blacklist (args_opts a)) req = Ret bv ->
  let r := run a req s in
  (exists rest : list Event,
     events r =
       (EvResolveId :: predicate_events EvWhitelist (opt_whitelist (args_opts a)) ++
        predicate_events EvBlacklist (opt_blacklist (args_opts a)) ++ rest)%list) /\
  (truthy bv = true ->
   outcome r = Throw (mkError "Error" "Forbidden" (Some 493)) /\
   events r =
     (EvResolveId :: predicate_events EvWhitelist (opt_whitelist (args_opts a)) ++
      [EvBlacklist])%list /\
   occurs_before EvResolveId EvBlacklist (events r) = true /\
   occurs_before EvBlacklist EvResolveId (events r) = false /\
   occurs_before EvBlacklist EvWhitelist (events r) = false /\
   count_events is_handler_call (events r) = 0%nat).
Proof.
  intros Hid Hwl Hbl r. split.
  - unfold r. rewrite (run_prelude _ _ _ _ _ _ _ _ _ Hid Hwl Hbl).
    eexists. unfold after_events, prelude_events. cbn [events].
    rewrite <- app_comm_cons, <- app_assoc. reflexivity.
  - intros Hb. unfold r.
    rewrite (run_denied _ _ _ _ _ _ _ _ _ Hid Hwl Hbl Hb).
    cbn [outcome final events]. unfold prelude_events.
    destruct (opt_blacklist (args_opts a)) as [f|]; simpl in Hbl.
    + destruct (opt_whitelist (args_opts a)); repeat split; reflexivity.
    + injection Hbl as <-. discriminate.
Qed.

(** C10: on the throttling path with [opts.throw], that is, once the
    store has answered [remaining = 0] and lines 76-80 have run to their
    end, the error is raised after the response has been changed:
    [Retry-After] is set and the status code is 429 when the error is
    thrown, so a response whose status was not already 429 is not left as
    it was; the message of the error is the [body] field of the response,
    which the middleware has not written. *)
Theorem C10_throw_after_response_mutation a req s idv limit db' :
  limited limiter_get a req s idv limit db' ->
  limit_headers_settable (args_opts a) = true ->
  remaining limit = 0 ->
  opt_throw (args_opts a) = true ->
  let r := run a req s in
  let now := clock (S (st_ticks s)) in
  (exists e, outcome r = Throw e /\
     err_statusCode e = Some 429 /\
     err_message e = match res_body (st_res s) with Some b => b | None => EmptyString end) /\
  (exists before : list Event,
     events r = (before ++ [EvSetHeader HRetryAfter "Retry-After" (VNum (after_of limit now));
                            EvSetStatus 429])%list) /\
  getHeader "Retry-After" (st_res (final r)) = Some (VNum (after_of limit now)) /\
  res_statusCode (st_res (final r)) = 429 /\
  (res_statusCode (st_res s) <> 429 -> st_res (final r) <> st_res s) /\
  res_body (st_res (final r)) = res_body (st_res s) /\
  res_ended (st_res (final r)) = res_ended (st_res s).
Proof.
  intros (wv & bv & Hid & Hwl & Hbl & Hnb & Hnw & Hget) Hset Hr Ht r now. unfold r.
  rewrite (run_throttled_throw _ _ _ _ _ _ _ _ _ Hid Hwl Hbl _ _ Hnb Hnw Hget Hset Hr Ht).
  cbn [outcome final events st_res]. fold now.
  split; [eexists; repeat split; reflexivity|].
  split.
  { exists (prelude_events (args_opts a) ++ EvLimiterGet idv ::
            limit_header_events (args_opts a) limit ++ [EvNow; EvNow])%list.
    unfold throttle_events.
    rewrite <- !app_assoc, <- app_comm_cons, <- !app_assoc. reflexivity. }
  split; [apply getHeader_with_header|].
  split; [reflexivity|].
  split.
  { intros Hne Heq. apply Hne. rewrite <- Heq. reflexivity. }
  apply throttled_response_keeps.
Qed.

End Claims.

(** ** The claims on concrete requests *)

(** The sample requests reach the store: no predicate is configured and
    the resolved identity is a string. *)
Ltac reaches_store :=
  exists (VBool false), (VBool false); repeat split; reflexivity.

(** C1 as stated fails: with [reset = 100] and [now = 95500] the header is
    4, not [100 - floor(95500 / 1000) = 5]; and with a total header named
    [X Max], which Node refuses, the request ends in a [TypeError] with the
    status code still 200 and no [Retry-After]. *)
Lemma C1_retry_after_is_not_floor :
  let limit := quota 0 100 in
  let now := 95500 in
  let r := ratelimit counting_store ms_fmtLong (fixed_clock now)
             (HandlerOnly ok_handler) proxied_request (start limit) in
  let r' := ratelimit counting_store ms_fmtLong (fixed_clock 95000)
              (WithOpts (opts_with_headers spaced_names) ok_handler)
              proxied_request (start limit) in
  (limited counting_store (HandlerOnly ok_handler) proxied_request (start limit)
     proxied_id limit limit /\
   remaining limit = 0 /\
   res_statusCode (st_res (final r)) = 429 /\
   getHeader "Retry-After" (st_res (final r)) = Some (VNum 4) /\
   reset limit - now / 1000 = 5 /\
   getHeader "Retry-After" (st_res (final r)) <> Some (VNum (reset limit - now / 1000))) /\
  (limited counting_store (WithOpts (opts_with_headers spaced_names) ok_handler)
     proxied_request (start limit) proxied_id limit limit /\
   outcome r' = Throw (TypeError_invalid_token "X Max") /\
   res_statusCode (st_res (final r')) = 200 /\
   getHeader "Retry-After" (st_res (final r')) = None).
Proof.
  split.
  - split.
    { reaches_store. }
    vm_compute. repeat split; discriminate.
  - split.
    { reaches_store. }
    vm_compute. repeat split.
Qed.

(** C1 on a whole second: five seconds before the window closes the header
    is 5. *)
Lemma C1_throttled_witness :
  let limit := quota 0 100 in
  let r := ratelimit counting_store ms_fmtLong (fixed_clock 95000)
             (HandlerOnly ok_handler) proxied_request (start limit) in
  res_statusCode (st_res (final r)) = 429 /\
  getHeader "Retry-After" (st_res (final r)) = Some (VNum 5) /\
  count_events is_handler_call (events r) = 0%nat.
Proof.
  intros limit r.
  assert (Hl : limited counting_store (HandlerOnly ok_handler) proxied_request
                 (start limit) proxied_id limit limit).
  { reaches_store. }
  destruct (C1_throttled_status_and_retry_after counting_store ms_fmtLong
              (fixed_clock 95000) (HandlerOnly ok_handler) proxied_request
              (start limit) proxied_id limit limit Hl eq_refl eq_refl)
    as (Hst & _ & _ & _ & Hfive & Hcount).
  split; [exact Hst|]. split; [|exact Hcount].
  apply Hfive; reflexivity.
Defined.

(** C2 with three requests left: the remaining header says 2, in the
    trace and on the response the handler receives. *)
Lemma C2_remaining_witness :
  let limit := quota 3 100 in
  let r := ratelimit counting_store ms_fmtLong (fixed_clock 95000)
             (HandlerOnly ok_handler) proxied_request (start limit) in
  EvSetHeader HRemaining "X-RateLimit-Remaining" (VNum 2) ∈ events r /\
  getHeader "X-RateLimit-Remaining"
    (with_limit_headers no_opts limit fresh_response) = Some (VNum 2) /\
  0 <= calls_of limit.
Proof.
  intros limit r.
  assert (Hl : limited counting_store (HandlerOnly ok_handler) proxied_request
                 (start limit) proxied_id limit (quota 2 100)).
  { reaches_store. }
  destruct (C2_remaining_header_value counting_store ms_fmtLong
              (fixed_clock 95000) (HandlerOnly ok_handler) proxied_request
              (start limit) proxied_id limit (quota 2 100) Hl)
    as (_ & Hw & Hseen & _ & _ & Hpos).
  split; [exact (Hw eq_refl eq_refl eq_refl)|]. split; [|exact Hpos].
  destruct (Hseen eq_refl eq_refl ltac:(vm_compute; discriminate)) as (Hh & _).
  destruct (Hh ltac:(discriminate)) as (_ & _ & Hget). exact Hget.
Defined.

(** C3 for a caller that is blacklisted, whitelisted and exempted by the
    resolver at once. *)
Lemma C3_blacklisted_witness :
  let r := ratelimit counting_store ms_fmtLong (fixed_clock 95000)
             (WithOpts exempting_opts ok_handler) direct_request (start (quota 3 100)) in
  outcome r = Throw (mkError "Error" "Forbidden" (Some 493)) /\
  count_events is_handler_call (events r) = 0%nat /\
  count_events is_store_query (events r) = 0%nat /\
  final r = start (quota 3 100).
Proof.
  exact (C3_blacklisted_is_forbidden counting_store ms_fmtLong (fixed_clock 95000)
           (WithOpts exempting_opts ok_handler) direct_request (start (quota 3 100))
           (VBool false) (VBool true) (VBool true) eq_refl eq_refl eq_refl eq_refl).
Defined.

(** C4 for a resolver that answers [false], with the quota used up. *)
Lemma C4_bypass_witness :
  let r := ratelimit counting_store ms_fmtLong (fixed_clock 95000)
             (WithOpts unlimited_opts ok_handler) direct_request (start (quota 0 100)) in
  outcome r = Ret (VStr "ok") /\
  st_res (final r) = end_with "ok" fresh_response /\
  st_db (final r) = quota 0 100 /\
  count_events is_handler_call (events r) = 1%nat /\
  count_events is_store_query (events r) = 0%nat /\
  count_events is_header_write (events r) = 0%nat.
Proof.
  exact (C4_bypass_calls_handler_directly counting_store ms_fmtLong (fixed_clock 95000)
           (WithOpts unlimited_opts ok_handler) direct_request (start (quota 0 100))
           (VBool false) (VBool false) (VBool false) eq_refl eq_refl eq_refl eq_refl
           (or_introl eq_refl)).
Defined.

(** C5 with [T = 1700000000]. *)
Lemma C5_round_trip_witness :
  let r := ratelimit counting_store ms_fmtLong (fixed_clock 95000)
             (HandlerOnly ok_handler) proxied_request (start (quota 3 1700000000)) in
  List.filter is_header_write (events r) =
    [EvSetHeader HTotal "X-RateLimit-Limit" (VNum 10);
     EvSetHeader HRemaining "X-RateLimit-Remaining" (VNum 2);
     EvSetHeader HReset "X-RateLimit-Reset" (VNum 1700000000)] /\
  List.filter is_handler_call (events r) = [EvHandler] /\
  outcome r = Ret (VStr "ok").
Proof.
  intros r.
  assert (Hl : limited counting_store (HandlerOnly ok_handler) proxied_request
                 (start (quota 3 1700000000)) proxied_id
                 {| total := 10; remaining := 3; reset := 1700000000 |}
                 (quota 2 1700000000)).
  { reaches_store. }
  destruct (C5_headers_round_trip counting_store ms_fmtLong (fixed_clock 95000)
              (HandlerOnly ok_handler) proxied_request (start (quota 3 1700000000))
              proxied_id 1700000000 (quota 2 1700000000) Hl eq_refl eq_refl)
    as (Hw & _ & _ & _ & Hh & Ho & _).
  split; [exact Hw|]. split; [exact Hh | exact Ho].
Defined.



(** C6 with [opts.throw] on a response without a body. *)
Example throttle_throws :
  let r := ratelimit counting_store ms_fmtLong (fixed_clock 95500)
             (WithOpts throwing_opts ok_handler) proxied_request (start (quota 0 100)) in
  outcome r = Throw (mkError "Error" EmptyString (Some 429)) /\
  res_ended (st_res (final r)) = None.
Proof. split; reflexivity. Qed.

(** C7 behind a proxy and on a direct connection. *)
Lemma C7_identity_witness :
  resolve_id no_opts proxied_request = Ret (VStr "203.0.113.7, 10.0.0.2") /\
  resolve_id no_opts direct_request = Ret (VStr "10.0.0.1").
Proof.
  split.
  - apply (proj1 (C7_default_identity no_opts proxied_request eq_refl)
             "203.0.113.7, 10.0.0.2"); [reflexivity | discriminate].
  - apply (proj1 (proj2 (C7_default_identity no_opts direct_request eq_refl))
             {| conn_remoteAddress := Some "10.0.0.1"; conn_socket := None |} "10.0.0.1");
      [left; reflexivity | reflexivity | reflexivity | discriminate].
Defined.

(** C8 on a throttled request: [Retry-After] is the only header written. *)
Lemma C8_disabled_witness :
  let r := ratelimit counting_store ms_fmtLong (fixed_clock 95500)
             (WithOpts quiet_opts ok_handler) proxied_request (start (quota 0 100)) in
  count_events is_limit_header_write (events r) = 0%nat /\
  List.filter is_header_write (events r) =
    [EvSetHeader HRetryAfter "Retry-After" (VNum 4)].
Proof.
  intros r.
  split; [|reflexivity].
  exact (proj1 (C8_disableHeader_sets_no_limit_header counting_store ms_fmtLong
                  (fixed_clock 95500) (WithOpts quiet_opts ok_handler)
                  proxied_request (start (quota 0 100)) eq_refl)).
Defined.

(** C9 as stated fails: the deny-list predicate is the last of the three
    evaluations, after identity resolution and after the allow-list
    predicate. *)
Lemma C9_identity_is_resolved_first :
  let r := ratelimit counting_store ms_fmtLong (fixed_clock 95000)
             (WithOpts exempting_opts ok_handler) direct_request (start (quota 3 100)) in
  events r = [EvResolveId; EvWhitelist; EvBlacklist] /\
  occurs_before EvBlacklist EvResolveId (events r) = false /\
  occurs_before EvResolveId EvBlacklist (events r) = true.
Proof. repeat split; reflexivity. Qed.

(** C9 for a caller that the resolver exempts and the deny-list rejects. *)
Lemma C9_deny_witness :
  let r := ratelimit counting_store ms_fmtLong (fixed_clock 95000)
             (WithOpts exempting_opts ok_handler) direct_request (start (quota 3 100)) in
  outcome r = Throw (mkError "Error" "Forbidden" (Some 493)) /\
  events r = [EvResolveId; EvWhitelist; EvBlacklist].
Proof.
  intros r.
  destruct (C9_deny_decision_precedes_bypass counting_store ms_fmtLong (fixed_clock 95000)
              (WithOpts exempting_opts ok_handler) direct_request (start (quota 3 100))
              (VBool false) (VBool true) (VBool true) eq_refl eq_refl eq_refl)
    as (_ & Hdeny).
  destruct (Hdeny eq_refl) as (Ho & Hev & _).
  split; [exact Ho | exact Hev].
Defined.

(** C10 on a fresh response, 4.5 seconds before the window closes. *)
Lemma C10_throw_witness :
  let limit := quota 0 100 in
  let r := ratelimit counting_store ms_fmtLong (fixed_clock 95500)
             (WithOpts throwing_opts ok_handler) proxied_request (start limit) in
  (exists e, outcome r = Throw e /\ err_statusCode e = Some 429 /\
             err_message e = EmptyString) /\
  getHeader "Retry-After" (st_res (final r)) = Some (VNum 4) /\
  res_statusCode (st_res (final r)) = 429 /\
  st_res (final r) <> fresh_response /\
  res_ended (st_res (final r)) = None.
Proof.
  intros limit r.
  assert (Hl : limited counting_store (WithOpts throwing_opts ok_handler) proxied_request
                 (start limit) proxied_id limit limit).
  { reaches_store. }
  destruct (C10_throw_after_response_mutation counting_store ms_fmtLong (fixed_clock 95500)
              (WithOpts throwing_opts ok_handler) proxied_request (start limit)
              proxied_id limit limit Hl eq_refl eq_refl eq_refl)
    as (Herr & _ & Hra & Hst & Hne & _ & Hend).
  split; [exact Herr|]. split; [exact Hra|]. split; [exact Hst|].
  split; [apply Hne; discriminate | exact Hend].
Defined.

(** ** Beyond the claims: every way a request can go *)

Lemma bind_stops {Db A B} (m : M Db A) (f : A -> M Db B) s e s' evs :
  m s = mkRun (Throw e) s' evs ->
  bind m f s = mkRun (Throw e) s' evs.
Proof. intros H. unfold bind. rewrite H. reflexivity. Qed.

Lemma await_predicate_throws {Db} ev p req e (s : State Db) :
  predicate_result p req = Throw e ->
  await_predicate ev p req s = mkRun (Throw e) s [ev] /\ predicate_events ev p = [ev].
Proof.
  destruct p; simpl; intros H; [|discriminate].
  unfold await. rewrite H. split; reflexivity.
Qed.

Lemma is_false_spec v : is_false v = true <-> v = VBool false.
Proof.
  split; [|intros ->; reflexivity].
  destruct v as [| |[]| |]; simpl; intros H; try discriminate. reflexivity.
Qed.

Section Inversion.

Context {Db : Type}.
Variable limiter_get : Opts -> jsval -> Db -> Outcome Limit * Db.
Variable ms_long : Z -> string.
Variable clock : nat -> Z.
Variables (a : Args) (req : Request) (s : State Db).

Abbreviation run := (ratelimit limiter_get ms_long clock).

Lemma run_resolver_throws e :
  resolve_id (args_opts a) req = Throw e ->
  run a req s = mkRun (Throw e) s [EvResolveId].
Proof.
  intros Hid. unfold ratelimit.
  apply bind_stops. unfold await. rewrite Hid. reflexivity.
Qed.

Lemma run_whitelist_throws idv e :
  resolve_id (args_opts a) req = Ret idv ->
  predicate_result (opt_whitelist (args_opts a)) req = Throw e ->
  run a req s = mkRun (Throw e) s [EvResolveId; EvWhitelist].
Proof.
  intros Hid Hwl. unfold ratelimit.
  erewrite bind_ret_run by (unfold await; rewrite Hid; reflexivity).
  erewrite bind_stops; [|apply (proj1 (await_predicate_throws _ _ _ _ _ Hwl))].
  reflexivity.
Qed.

Lemma run_blacklist_throws idv wv e :
  resolve_id (args_opts a) req = Ret idv ->
  predicate_result (opt_whitelist (args_opts a)) req = Ret wv ->
  predicate_result (opt_blacklist (args_opts a)) req = Throw e ->
  run a req s =
  mkRun (Throw e) s
    (EvResolveId :: predicate_events EvWhitelist (opt_whitelist (args_opts a)) ++
     [EvBlacklist]).
Proof.
  intros Hid Hwl Hbl. unfold ratelimit.
  erewrite bind_ret_run by (unfold await; rewrite Hid; reflexivity).
  erewrite bind_ret_run by (apply await_predicate_ret, Hwl).
  erewrite bind_stops; [|apply (proj1 (await_predicate_throws _ _ _ _ _ Hbl))].
  reflexivity.
Qed.

Lemma run_store_fails idv wv bv e db' :
  resolve_id (args_opts a) req = Ret idv ->
  predicate_result (opt_whitelist (args_opts a)) req = Ret wv ->
  predicate_result (opt_blacklist (args_opts a)) req = Ret bv ->
  truthy bv = false ->
  (is_false idv || truthy wv)%bool = false ->
  limiter_get (args_opts a) idv (st_db s) = (Throw e, db') ->
  run a req s =
  mkRun (Throw e) (mkState (st_res s) db' (st_ticks s))
    (prelude_events (args_opts a) ++ [EvLimiterGet idv]).
Proof.
  intros Hid Hwl Hbl Hnb Hnw Hget.
  rewrite (run_prelude _ _ _ _ _ _ _ _ _ Hid Hwl Hbl), Hnb, Hnw.
  erewrite bind_stops by (unfold await_limiter; rewrite Hget; reflexivity).
  reflexivity.
Qed.

(** Every run is one of the ten paths. *)
Lemma run_path : Path limiter_get ms_long clock a req s (run a req s).
Proof.
  destruct (resolve_id (args_opts a) req) as [idv | e] eqn:Hid.
  2: { rewrite (run_resolver_throws _ Hid). apply PathResolverThrows, Hid. }
  destruct (predicate_result (opt_whitelist (args_opts a)) req) as [wv | e] eqn:Hwl.
  2: { rewrite (run_whitelist_throws _ _ Hid Hwl).
       eapply PathWhitelistThrows; eassumption. }
  destruct (predicate_result (opt_blacklist (args_opts a)) req) as [bv | e] eqn:Hbl.
  2: { rewrite (run_blacklist_throws _ _ _ Hid Hwl Hbl).
       eapply PathBlacklistThrows; eassumption. }
  destruct (truthy bv) eqn:Hb.
  { rewrite (run_denied _ _ _ _ _ _ _ _ _ Hid Hwl Hbl Hb).
    eapply PathDenied; eassumption. }
  destruct (is_false idv || truthy wv)%bool eqn:Hby.
  { rewrite (run_bypassed _ _ _ _ _ _ _ _ _ Hid Hwl Hbl Hb Hby).
    eapply PathBypassed; eassumption. }
  destruct (limiter_get (args_opts a) idv (st_db s)) as [[limit | e] db'] eqn:Hget.
  2: { rewrite (run_store_fails _ _ _ _ _ Hid Hwl Hbl Hb Hby Hget).
       eapply PathStoreFails; eassumption. }
  assert (Hl : limited limiter_get a req s idv limit db')
    by (exists wv, bv; repeat split; assumption).
  destruct (limit_headers_settable (args_opts a)) eqn:Hset.
  2: { rewrite (run_headers_refused _ _ _ _ _ _ _ _ _ Hid Hwl Hbl _ _ Hb Hby Hget Hset).
       apply PathHeaderRefused; assumption. }
  destruct (Z.eq_dec (remaining limit) 0) as [Hr | Hr].
  - destruct (opt_throw (args_opts a)) eqn:Ht.
    + rewrite (run_throttled_throw _ _ _ _ _ _ _ _ _ Hid Hwl Hbl _ _ Hb Hby Hget Hset Hr Ht).
      apply PathThrottledThrow; assumption.
    + rewrite (run_throttled_end _ _ _ _ _ _ _ _ _ Hid Hwl Hbl _ _ Hb Hby Hget Hset Hr Ht).
      apply PathThrottledEnd; assumption.
  - rewrite (run_allowed _ _ _ _ _ _ _ _ _ Hid Hwl Hbl _ _ Hb Hby Hget Hset Hr).
    apply PathAllowed; assumption.
Qed.

End Inversion.

(** ** Beyond the claims: failures of the collaborators *)

Ltac count_path :=
  rewrite ?count_events_app, ?count_events_cons, ?count_events_app;
  rewrite ?count_prelude by reflexivity;
  rewrite ?count_limit_headers by (intros [] ? ? ?; (reflexivity || congruence)).

Section Failures.

Context {Db : Type}.
Variable limiter_get : Opts -> jsval -> Db -> Outcome Limit * Db.
Variable ms_long : Z -> string.
Variable clock : nat -> Z.

Abbreviation run := (ratelimit limiter_get ms_long clock).

(** When the counter store fails for a request that is neither bypassed
    nor deny-listed, the request fails with the store's error: the
    middleware has queried the store once, written nothing to the response
    and not called the handler (lines 65-68). *)
Theorem store_failure_propagates a req s idv wv bv e db' :
  resolve_id (args_opts a) req = Ret idv ->
  predicate_result (opt_whitelist (args_opts a)) req = Ret wv ->
  predicate_result (opt_blacklist (args_opts a)) req = Ret bv ->
  truthy bv = false ->
  (is_false idv || truthy wv)%bool = false ->
  limiter_get (args_opts a) idv (st_db s) = (Throw e, db') ->
  let r := run a req s in
  outcome r = Throw e /\
  st_res (final r) = st_res s /\
  st_db (final r) = db' /\
  count_events is_store_query (events r) = 1%nat /\
  count_events is_write (events r) = 0%nat /\
  count_events is_handler_call (events r) = 0%nat.
Proof.
  intros Hid Hwl Hbl Hnb Hnw Hget r. unfold r.
  rewrite (run_store_fails _ _ _ _ _ _ _ _ _ _ _ Hid Hwl Hbl Hnb Hnw Hget).
  cbn [outcome final events st_res st_db].
  repeat split; count_path; reflexivity.
Qed.

(** When the identity resolver throws (a custom [opts.id], or
    [keyGenerator] reading a missing connection), the request fails with
    that error before anything else happens: no predicate is evaluated, the
    store is not asked, the handler is not called and the response is as it
    was (line 52). *)
Theorem resolver_failure_stops_request a req s e :
  resolve_id (args_opts a) req = Throw e ->
  let r := run a req s in
  outcome r = Throw e /\ final r = s /\ events r = [EvResolveId].
Proof.
  intros Hid r. unfold r. rewrite (run_resolver_throws _ _ _ _ _ _ _ Hid).
  repeat split; reflexivity.
Qed.

(** A predicate that throws (or whose promise rejects) ends the request
    with its error.  When it is the whitelist, the blacklist is never
    consulted; when it is the blacklist, the handler is not called even for
    a caller the resolver or the whitelist exempts (lines 53-54). *)
Theorem predicate_failure_stops_request a req s idv :
  resolve_id (args_opts a) req = Ret idv ->
  let r := run a req s in
  (forall e,
     predicate_result (opt_whitelist (args_opts a)) req = Throw e ->
     outcome r = Throw e /\ final r = s /\ events r = [EvResolveId; EvWhitelist]) /\
  (forall wv e,
     predicate_result (opt_whitelist (args_opts a)) req = Ret wv ->
     predicate_result (opt_blacklist (args_opts a)) req = Throw e ->
     outcome r = Throw e /\ final r = s /\
     count_events is_handler_call (events r) = 0%nat /\
     count_events is_store_query (events r) = 0%nat).
Proof.
  intros Hid r. split.
  - intros e Hwl. unfold r. rewrite (run_whitelist_throws _ _ _ _ _ _ _ _ Hid Hwl).
    repeat split; reflexivity.
  - intros wv e Hwl Hbl. unfold r.
    rewrite (run_blacklist_throws _ _ _ _ _ _ _ _ _ Hid Hwl Hbl).
    cbn [outcome final events].
    destruct (opt_whitelist (args_opts a)); repeat split; reflexivity.
Qed.

(** [thenify] is error-first: when the store's [get] calls back with an
    error, or throws, the request fails with that error, whatever result
    came with it, and nothing is written; when it calls back with [null]
    and a limit, the request goes on with that limit and, once the
    rate-limit headers are set, calls the handler exactly when
    [limit.remaining] is truthy (lines 68 and 104-113). *)
Theorem thenify_is_error_first
    (get : Opts -> jsval -> Db -> NodeCall Limit * Db)
    a req s idv wv bv call db' :
  resolve_id (args_opts a) req = Ret idv ->
  predicate_result (opt_whitelist (args_opts a)) req = Ret wv ->
  predicate_result (opt_blacklist (args_opts a)) req = Ret bv ->
  truthy bv = false ->
  (is_false idv || truthy wv)%bool = false ->
  get (args_opts a) idv (st_db s) = (call, db') ->
  let r := ratelimit (thenified get) ms_long clock a req s in
  (forall e res, call = CallsBack (Some e) res ->
     outcome r = Throw e /\ count_events is_write (events r) = 0%nat /\
     count_events is_handler_call (events r) = 0%nat) /\
  (forall e, call = ThrowsFirst e ->
     outcome r = Throw e /\ count_events is_write (events r) = 0%nat /\
     count_events is_handler_call (events r) = 0%nat) /\
  (forall limit, call = CallsBack None limit ->
     limited (thenified get) a req s idv limit db' /\
     (limit_headers_settable (args_opts a) = true ->
      count_events is_handler_call (events r) =
        (if truthy (VNum (remaining limit)) then 1%nat else 0%nat))).
Proof.
  intros Hid Hwl Hbl Hnb Hnw Hget r.
  assert (Hfail : forall e, thenified get (args_opts a) idv (st_db s) = (Throw e, db') ->
            outcome r = Throw e /\ count_events is_write (events r) = 0%nat /\
            count_events is_handler_call (events r) = 0%nat).
  { intros e Hth. unfold r.
    rewrite (run_store_fails _ _ _ _ _ _ _ _ _ _ _ Hid Hwl Hbl Hnb Hnw Hth).
    cbn [outcome events]. repeat split; count_path; reflexivity. }
  split; [|split].
  - intros e res ->. apply Hfail. unfold thenified. rewrite Hget. reflexivity.
  - intros e ->. apply Hfail. unfold thenified. rewrite Hget. reflexivity.
  - intros limit ->.
    assert (Hth : thenified get (args_opts a) idv (st_db s) = (Ret limit, db'))
      by (unfold thenified; rewrite Hget; reflexivity).
    split; [exists wv, bv; repeat split; assumption|].
    intros Hset. unfold r. simpl.
    destruct (Z.eqb_spec (remaining limit) 0) as [Hr | Hr]; simpl.
    + destruct (opt_throw (args_opts a)) eqn:Ht.
      * rewrite (run_throttled_throw _ _ _ _ _ _ _ _ _ Hid Hwl Hbl _ _ Hnb Hnw Hth Hset Hr Ht).
        cbn [events]. count_path. reflexivity.
      * rewrite (run_throttled_end _ _ _ _ _ _ _ _ _ Hid Hwl Hbl _ _ Hnb Hnw Hth Hset Hr Ht).
        cbn [events]. count_path. reflexivity.
    + rewrite (run_allowed _ _ _ _ _ _ _ _ _ Hid Hwl Hbl _ _ Hnb Hnw Hth Hset Hr).
      cbn [events]. count_path. reflexivity.
Qed.

(** A configured header name that Node refuses ends the request at lines
    76-80, after the store has been asked: the request fails with the
    [TypeError] of [res.setHeader] for one of the total, remaining and
    reset names, the total name if that one is not an HTTP token; the
    store keeps the state the query left; the handler is not called, no
    clock is read, neither [Retry-After] nor a status is set and the
    response is not ended.  When the total name is the one refused, the
    response is left as it was. *)
Theorem refused_header_name_stops_request a req s idv limit db' :
  limited limiter_get a req s idv limit db' ->
  limit_headers_settable (args_opts a) = false ->
  let o := args_opts a in
  let r := run a req s in
  (exists name,
     outcome r = Throw (TypeError_invalid_token name) /\
     is_token name = false /\
     (name = total_name o \/ name = remaining_name o \/ name = reset_name o)) /\
  (is_token (total_name o) = false ->
   outcome r = Throw (TypeError_invalid_token (total_name o)) /\
   st_res (final r) = st_res s /\
   count_events is_write (events r) = 0%nat) /\
  st_db (final r) = db' /\
  st_ticks (final r) = st_ticks s /\
  res_statusCode (st_res (final r)) = res_statusCode (st_res s) /\
  res_ended (st_res (final r)) = res_ended (st_res s) /\
  count_events is_store_query (events r) = 1%nat /\
  count_events is_handler_call (events r) = 0%nat /\
  count_events is_retry_after (events r) = 0%nat /\
  count_events is_status (events r) = 0%nat /\
  count_events is_end (events r) = 0%nat.
Proof.
  intros (wv & bv & Hid & Hwl & Hbl & Hnb & Hnw & Hget) Hset o r. unfold r.
  rewrite (run_headers_refused _ _ _ _ _ _ _ _ _ Hid Hwl Hbl _ _ Hnb Hnw Hget Hset).
  cbn [outcome final events st_res st_db st_ticks].
  unfold limit_headers_settable in Hset. unfold limit_headers_refusal. fold o in Hset |- *.
  destruct (opt_disableHeader o); [discriminate|]. cbn [orb] in Hset.
  destruct (is_token (total_name o)) eqn:Kt;
    [destruct (is_token (remaining_name o)) eqn:Kr;
       [destruct (is_token (reset_name o)) eqn:Ks; [discriminate|]|]|];
    cbn [fst snd];
    (split; [eexists; split; [reflexivity|]; split; [eassumption | tauto]|]);
    (split; [intros; try discriminate; repeat split; count_path; reflexivity|]);
    repeat split; count_path; reflexivity.
Qed.

End Failures.

(** ** Beyond the claims: the default identity *)

(** [keyGenerator], one probe after the other. *)
Lemma keyGenerator_probes req :
  keyGenerator req =
  let xff := of_prop (req_headers req !! "x-forwarded-for") in
  if truthy xff then Ret xff else
  match req_connection req with
  | None => Throw TypeError_undefined
  | Some c =>
      if truthy (of_prop (conn_remoteAddress c)) then Ret (of_prop (conn_remoteAddress c))
      else
        match req_socket req with
        | None => Throw TypeError_undefined
        | Some sk =>
            if truthy (of_prop (sock_remoteAddress sk))
            then Ret (of_prop (sock_remoteAddress sk))
            else
              match conn_socket c with
              | None => Throw TypeError_undefined
              | Some cs => Ret (of_prop (sock_remoteAddress cs))
              end
        end
  end.
Proof.
  unfold keyGenerator, or_else, prop_of. cbv zeta.
  destruct (truthy (of_prop (req_headers req !! "x-forwarded-for"))); [reflexivity|].
  destruct (req_connection req) as [c|]; [|reflexivity].
  destruct (truthy (of_prop (conn_remoteAddress c))); [reflexivity|].
  destruct (req_socket req) as [sk|]; [|reflexivity].
  destruct (truthy (of_prop (sock_remoteAddress sk))); [reflexivity|].
  destruct (conn_socket c); reflexivity.
Qed.

(** Without a usable forwarded-for header, [keyGenerator] throws a
    [TypeError] when the request has no [connection], when the connection
    has no address and the request has no [socket], and when neither has an
    address and the connection has no [socket] property of its own, which
    is how Node presents a peer that has gone (lines 35-38). *)
Theorem keyGenerator_TypeError req :
  truthy (of_prop (req_headers req !! "x-forwarded-for")) = false ->
  (req_connection req = None -> keyGenerator req = Throw TypeError_undefined) /\
  (forall c,
     req_connection req = Some c ->
     truthy (of_prop (conn_remoteAddress c)) = false ->
     (req_socket req = None -> keyGenerator req = Throw TypeError_undefined) /\
     (forall sk,
        req_socket req = Some sk ->
        truthy (of_prop (sock_remoteAddress sk)) = false ->
        conn_socket c = None ->
        keyGenerator req = Throw TypeError_undefined)).
Proof.
  intros Hx. rewrite keyGenerator_probes. cbv zeta. rewrite Hx.
  split.
  - intros Hc. rewrite Hc. reflexivity.
  - intros c Hc Ha. rewrite Hc, Ha. split.
    + intros Hs. rewrite Hs. reflexivity.
    + intros sk Hs Hsa Hcs. rewrite Hs, Hsa, Hcs. reflexivity.
Qed.

(** The two last resorts of [keyGenerator]: with no usable forwarded-for
    header and no address on the connection, the identity is the address
    of [req.socket] when it is not empty, and otherwise whatever
    [req.connection.socket.remoteAddress] holds, [undefined] and the empty
    string included (lines 37-38). *)
Theorem keyGenerator_last_resorts req c :
  truthy (of_prop (req_headers req !! "x-forwarded-for")) = false ->
  req_connection req = Some c ->
  truthy (of_prop (conn_remoteAddress c)) = false ->
  (forall sk addr,
     req_socket req = Some sk -> sock_remoteAddress sk = Some addr ->
     addr <> EmptyString ->
     keyGenerator req = Ret (VStr addr)) /\
  (forall sk cs,
     req_socket req = Some sk ->
     truthy (of_prop (sock_remoteAddress sk)) = false ->
     conn_socket c = Some cs ->
     keyGenerator req = Ret (of_prop (sock_remoteAddress cs))).
Proof.
  intros Hx Hc Ha. rewrite keyGenerator_probes. cbv zeta. rewrite Hx, Hc, Ha.
  split.
  - intros sk addr Hs Hsa Hne. rewrite Hs, Hsa. simpl.
    destruct (String.eqb_spec addr EmptyString); [contradiction | reflexivity].
  - intros sk cs Hs Hsa Hcs. rewrite Hs, Hsa, Hcs. reflexivity.
Qed.

(** ** Beyond the claims: requests that reach the store *)

Lemma with_limit_headers_keeps o limit r :
  res_statusCode (with_limit_headers o limit r) = res_statusCode r /\
  res_body (with_limit_headers o limit r) = res_body r /\
  res_ended (with_limit_headers o limit r) = res_ended r.
Proof.
  unfold with_limit_headers. destruct (opt_disableHeader o); repeat split; reflexivity.
Qed.

Lemma limited_same_store {Db} (limiter_get : Opts -> jsval -> Db -> Outcome Limit * Db)
    a req s idv limit db' idv' limit' db'' :
  limited limiter_get a req s idv limit db' ->
  limited limiter_get a req s idv' limit' db'' ->
  idv' = idv /\ limit' = limit /\ db'' = db'.
Proof.
  intros (wv & bv & Hid & _ & _ & _ & _ & Hget) (wv' & bv' & Hid' & _ & _ & _ & _ & Hget').
  assert (idv' = idv) by congruence. subst idv'.
  rewrite Hget in Hget'. injection Hget' as <- <-. auto.
Qed.

Section Reaching.

Context {Db : Type}.
Variable limiter_get : Opts -> jsval -> Db -> Outcome Limit * Db.
Variable ms_long : Z -> string.
Variable clock : nat -> Z.

Abbreviation run := (ratelimit limiter_get ms_long clock).

(** The admit path in general: when the store answers a limit whose
    [remaining] is not zero and the rate-limit headers are disabled or
    named as Node accepts, the handler is called exactly once, on the
    response that carries the rate-limit headers, and its result or its
    error is the result of the request; the middleware asks the store
    once, reads no clock, keeps the status code as it was and does not end
    the response (lines 65-83). *)
Theorem allowed_request_reaches_handler a req s idv limit db' :
  limited limiter_get a req s idv limit db' ->
  limit_headers_settable (args_opts a) = true ->
  remaining limit <> 0 ->
  let r := run a req s in
  let res := with_limit_headers (args_opts a) limit (st_res s) in
  outcome r = fst (args_handler a req res) /\
  st_res (final r) = snd (args_handler a req res) /\
  st_db (final r) = db' /\
  st_ticks (final r) = st_ticks s /\
  res_statusCode res = res_statusCode (st_res s) /\
  res_ended res = res_ended (st_res s) /\
  count_events is_handler_call (events r) = 1%nat /\
  count_events is_store_query (events r) = 1%nat /\
  count_events is_status (events r) = 0%nat /\
  count_events is_retry_after (events r) = 0%nat /\
  count_events is_end (events r) = 0%nat /\
  last (events r) = Some EvHandler.
Proof.
  intros (wv & bv & Hid & Hwl & Hbl & Hnb & Hnw & Hget) Hset Hr r res. unfold r.
  rewrite (run_allowed _ _ _ _ _ _ _ _ _ Hid Hwl Hbl _ _ Hnb Hnw Hget Hset Hr).
  cbn [outcome final events st_res st_db st_ticks]. fold res.
  destruct (with_limit_headers_keeps (args_opts a) limit (st_res s)) as (Hst & _ & Hend).
  repeat split; try assumption; try (count_path; reflexivity).
  rewrite app_comm_cons, app_assoc. apply last_snoc.
Qed.

(** What the handler finds under the remaining name, unless the reset
    name is the same header. *)
Lemma remaining_header_seen o limit res :
  opt_disableHeader o = false ->
  toLowerCase (reset_name o) <> toLowerCase (remaining_name o) ->
  getHeader (remaining_name o) (with_limit_headers o limit res) =
  Some (VNum (calls_of limit)).
Proof.
  intros Hd Hne. unfold with_limit_headers. rewrite Hd.
  rewrite getHeader_with_header_ne by exact Hne. apply getHeader_with_header.
Qed.

(** A store that answers a negative [remaining] lets the request through:
    line 83 tests [limit.remaining] for truth while line 71 compares it
    with zero.  With rate-limit headers that Node accepts, the handler is
    called, no 429 is produced, and the response it receives says 0 under
    the remaining name (unless the reset name is the same header). *)
Theorem negative_remaining_is_allowed a req s idv limit db' :
  limited limiter_get a req s idv limit db' ->
  limit_headers_settable (args_opts a) = true ->
  remaining limit < 0 ->
  let o := args_opts a in
  let r := run a req s in
  let res := with_limit_headers o limit (st_res s) in
  count_events is_handler_call (events r) = 1%nat /\
  count_events is_status (events r) = 0%nat /\
  outcome r = fst (args_handler a req res) /\
  st_res (final r) = snd (args_handler a req res) /\
  (opt_disableHeader o = false ->
   toLowerCase (reset_name o) <> toLowerCase (remaining_name o) ->
   getHeader (remaining_name o) res = Some (VNum 0)).
Proof.
  intros Hl Hset Hneg o r res.
  pose proof Hl as (wv & bv & Hid & Hwl & Hbl & Hnb & Hnw & Hget).
  assert (Hr : remaining limit <> 0) by lia.
  unfold r. rewrite (run_allowed _ _ _ _ _ _ _ _ _ Hid Hwl Hbl _ _ Hnb Hnw Hget Hset Hr).
  cbn [outcome events final st_res]. fold o res.
  split; [count_path; reflexivity|]. split; [count_path; reflexivity|].
  split; [reflexivity|]. split; [reflexivity|].
  intros Hd Hne. unfold res. rewrite (remaining_header_seen o limit _ Hd Hne).
  unfold calls_of. destruct (Z.ltb_spec 0 (remaining limit)); [lia | reflexivity].
Qed.

(** The last allowed request and a throttled one show the same remaining
    count: with rate-limit headers enabled, accepted by Node, and a
    remaining name that neither the reset name nor [Retry-After] shares,
    the handler of a request for which the store answers [remaining = 1]
    receives 0 under the remaining name, and the 429 response of a request
    for which it answers [remaining = 0] carries 0 as well
    (lines 71 and 78). *)
Theorem remaining_header_zero a req s idv limit db' :
  limited limiter_get a req s idv limit db' ->
  opt_disableHeader (args_opts a) = false ->
  limit_headers_settable (args_opts a) = true ->
  let o := args_opts a in
  toLowerCase (reset_name o) <> toLowerCase (remaining_name o) ->
  let r := run a req s in
  (remaining limit = 1 ->
   let res := with_limit_headers o limit (st_res s) in
   outcome r = fst (args_handler a req res) /\
   st_res (final r) = snd (args_handler a req res) /\
   count_events is_handler_call (events r) = 1%nat /\
   getHeader (remaining_name o) res = Some (VNum 0)) /\
  (remaining limit = 0 ->
   toLowerCase "Retry-After" <> toLowerCase (remaining_name o) ->
   count_events is_handler_call (events r) = 0%nat /\
   res_statusCode (st_res (final r)) = 429 /\
   getHeader (remaining_name o) (st_res (final r)) = Some (VNum 0)).
Proof.
  intros Hl Hd Hset o Hne r.
  pose proof Hl as (wv & bv & Hid & Hwl & Hbl & Hnb & Hnw & Hget).
  split.
  - intros Hone res. assert (Hr : remaining limit <> 0) by lia.
    unfold r. rewrite (run_allowed _ _ _ _ _ _ _ _ _ Hid Hwl Hbl _ _ Hnb Hnw Hget Hset Hr).
    cbn [outcome events final st_res]. fold o res.
    split; [reflexivity|]. split; [reflexivity|]. split; [count_path; reflexivity|].
    unfold res. rewrite (remaining_header_seen o limit _ Hd Hne).
    unfold calls_of. rewrite Hone. reflexivity.
  - intros Hr Hra.
    assert (Hthr : forall now,
              getHeader (remaining_name o) (throttled_response o limit now (st_res s))
              = Some (VNum 0)).
    { intros now. unfold throttled_response, getHeader, set_statusCode.
      cbn [res_headers with_header].
      rewrite lookup_insert_ne by exact Hra.
      fold (getHeader (remaining_name o) (with_limit_headers o limit (st_res s))).
      rewrite (remaining_header_seen o limit _ Hd Hne).
      unfold calls_of. rewrite Hr. reflexivity. }
    unfold r. destruct (opt_throw (args_opts a)) eqn:Ht.
    + rewrite (run_throttled_throw _ _ _ _ _ _ _ _ _ Hid Hwl Hbl _ _ Hnb Hnw Hget Hset Hr Ht).
      cbn [events final st_res]. fold o.
      split; [count_path; reflexivity|]. split; [reflexivity | apply Hthr].
    + rewrite (run_throttled_end _ _ _ _ _ _ _ _ _ Hid Hwl Hbl _ _ Hnb Hnw Hget Hset Hr Ht).
      cbn [events final st_res]. fold o.
      split; [count_path; reflexivity|]. split; [reflexivity | apply Hthr].
Qed.

(** Only the value [false] itself exempts a caller: an identity that is
    [undefined], [null], [0] or the empty string is not a bypass.  Unless
    the caller is whitelisted or deny-listed, the store is asked exactly
    once, for that very identity (lines 62-68). *)
Theorem only_false_disables_limiting a req s idv wv bv :
  resolve_id (args_opts a) req = Ret idv ->
  predicate_result (opt_whitelist (args_opts a)) req = Ret wv ->
  predicate_result (opt_blacklist (args_opts a)) req = Ret bv ->
  truthy bv = false ->
  truthy wv = false ->
  idv <> VBool false ->
  let r := run a req s in
  EvLimiterGet idv ∈ events r /\
  count_events is_store_query (events r) = 1%nat.
Proof.
  intros Hid Hwl Hbl Hnb Hw Hne r.
  assert (Hnw : (is_false idv || truthy wv)%bool = false).
  { rewrite Hw, orb_false_r. destruct (is_false idv) eqn:Hf; [|reflexivity].
    apply is_false_spec in Hf. contradiction. }
  assert (Hin : forall pre post : list Event,
            EvLimiterGet idv ∈ (pre ++ EvLimiterGet idv :: post)%list).
  { intros pre post. rewrite elem_of_app, elem_of_cons. auto. }
  destruct (limiter_get (args_opts a) idv (st_db s)) as [[limit | e] db'] eqn:Hget.
  - destruct (limit_headers_settable (args_opts a)) eqn:Hset.
    + destruct (Z.eq_dec (remaining limit) 0) as [Hr | Hr].
      * destruct (opt_throw (args_opts a)) eqn:Ht; unfold r.
        { rewrite (run_throttled_throw _ _ _ _ _ _ _ _ _ Hid Hwl Hbl _ _ Hnb Hnw Hget Hset Hr Ht).
          cbn [events]. split; [apply Hin | count_path; reflexivity]. }
        { rewrite (run_throttled_end _ _ _ _ _ _ _ _ _ Hid Hwl Hbl _ _ Hnb Hnw Hget Hset Hr Ht).
          cbn [events]. split; [apply Hin | count_path; reflexivity]. }
      * unfold r. rewrite (run_allowed _ _ _ _ _ _ _ _ _ Hid Hwl Hbl _ _ Hnb Hnw Hget Hset Hr).
        cbn [events]. split; [apply Hin | count_path; reflexivity].
    + unfold r.
      rewrite (run_headers_refused _ _ _ _ _ _ _ _ _ Hid Hwl Hbl _ _ Hnb Hnw Hget Hset).
      cbn [events]. split; [apply Hin|]. count_path.
      unfold limit_headers_refusal.
      destruct (is_token (total_name (args_opts a))),
               (is_token (remaining_name (args_opts a))); reflexivity.
  - unfold r. rewrite (run_store_fails _ _ _ _ _ _ _ _ _ _ _ Hid Hwl Hbl Hnb Hnw Hget).
    cbn [events]. split; [apply Hin | count_path; reflexivity].
Qed.

(** With three header names that Node accepts and that differ (Node
    compares them without regard to case), the handler sees the limit,
    the remaining count and the reset time under their names, and every
    other header, the status code, the body and the end of the response
    as they were (lines 45-49 and 76-83). *)
Theorem handler_sees_limit_headers a req s idv limit db' :
  limited limiter_get a req s idv limit db' ->
  remaining limit <> 0 ->
  opt_disableHeader (args_opts a) = false ->
  let o := args_opts a in
  is_token (total_name o) = true ->
  is_token (remaining_name o) = true ->
  is_token (reset_name o) = true ->
  toLowerCase (total_name o) <> toLowerCase (remaining_name o) ->
  toLowerCase (total_name o) <> toLowerCase (reset_name o) ->
  toLowerCase (remaining_name o) <> toLowerCase (reset_name o) ->
  let r := run a req s in
  exists res,
    outcome r = fst (args_handler a req res) /\
    st_res (final r) = snd (args_handler a req res) /\
    getHeader (total_name o) res = Some (VNum (total limit)) /\
    getHeader (remaining_name o) res = Some (VNum (calls_of limit)) /\
    getHeader (reset_name o) res = Some (VNum (reset limit)) /\
    (forall name,
       toLowerCase name <> toLowerCase (total_name o) ->
       toLowerCase name <> toLowerCase (remaining_name o) ->
       toLowerCase name <> toLowerCase (reset_name o) ->
       getHeader name res = getHeader name (st_res s)) /\
    res_statusCode res = res_statusCode (st_res s) /\
    res_body res = res_body (st_res s) /\
    res_ended res = res_ended (st_res s).
Proof.
  intros (wv & bv & Hid & Hwl & Hbl & Hnb & Hnw & Hget) Hr Hd o Kt Kr Ks Htr Hts Hrs r.
  assert (Hset : limit_headers_settable (args_opts a) = true).
  { unfold limit_headers_settable. fold o. rewrite Kt, Kr, Ks. apply orb_true_r. }
  exists (with_limit_headers o limit (st_res s)). unfold r.
  rewrite (run_allowed _ _ _ _ _ _ _ _ _ Hid Hwl Hbl _ _ Hnb Hnw Hget Hset Hr).
  cbn [outcome final st_res]. fold o.
  split; [reflexivity|]. split; [reflexivity|].
  destruct (with_limit_headers_keeps o limit (st_res s)) as (Hst & Hbody & Hend).
  unfold with_limit_headers. unfold o in *. rewrite Hd.
  split; [|split; [|split; [|split]]].
  - rewrite !getHeader_with_header_ne by congruence. apply getHeader_with_header.
  - rewrite getHeader_with_header_ne by congruence. apply getHeader_with_header.
  - apply getHeader_with_header.
  - intros name H1 H2 H3. rewrite !getHeader_with_header_ne by congruence. reflexivity.
  - repeat split; reflexivity.
Qed.

End Reaching.

(** ** Beyond the claims: what holds on every path *)

Ltac concrete_events :=
  cbn [outcome final events st_res st_db st_ticks];
  unfold prelude_events, predicate_events, limit_header_events, throttle_events,
    limit_headers_refusal;
  match goal with
  | |- context [args_opts ?a] =>
      destruct (opt_whitelist (args_opts a)), (opt_blacklist (args_opts a)),
        (opt_disableHeader (args_opts a))
  | _ => idtac
  end;
  repeat match goal with
  | |- context [is_token ?n] => destruct (is_token n)
  end;
  cbn.

Section EveryPath.

Context {Db : Type}.
Variable limiter_get : Opts -> jsval -> Db -> Outcome Limit * Db.
Variable ms_long : Z -> string.
Variable clock : nat -> Z.

Abbreviation run := (ratelimit limiter_get ms_long clock).

Lemma lifecycle_counts a req s :
  let r := run a req s in
  (count_events is_handler_call (events r) <= 1)%nat /\
  (count_events is_store_query (events r) <= 1)%nat /\
  (count_events is_handler_call (events r) + count_events is_status (events r) <= 1)%nat /\
  count_events is_retry_after (events r) = count_events is_status (events r) /\
  count_events is_clock_read (events r) = (2 * count_events is_status (events r))%nat /\
  (count_events is_end (events r) <= count_events is_status (events r))%nat /\
  (forall n, EvSetStatus n ∈ events r -> n = 429) /\
  (count_events is_handler_call (events r) = 1%nat -> last (events r) = Some EvHandler).
Proof.
  intros r. pose proof (run_path limiter_get ms_long clock a req s) as Hp.
  fold r in Hp. clearbody r.
  destruct Hp; concrete_events;
    (repeat split; try lia; try discriminate; try reflexivity);
    intros n Hin; rewrite ?elem_of_cons, ?elem_of_nil in Hin;
    intuition congruence.
Qed.

(** Whatever the collaborators answer or throw, a request calls the
    handler at most once and asks the store at most once; it never both
    calls the handler and sets a status; the only status it sets is 429,
    together with [Retry-After] and two readings of the clock; once the
    handler has been called the middleware does nothing more; and when the
    middleware ends the response, it does so as its last step, right after
    setting the status, so that the ended response has status 429
    (lines 51-97). *)
Theorem request_lifecycle a req s :
  let r := run a req s in
  (count_events is_handler_call (events r) <= 1)%nat /\
  (count_events is_store_query (events r) <= 1)%nat /\
  (count_events is_handler_call (events r) + count_events is_status (events r) <= 1)%nat /\
  count_events is_retry_after (events r) = count_events is_status (events r) /\
  count_events is_clock_read (events r) = (2 * count_events is_status (events r))%nat /\
  (count_events is_end (events r) <= count_events is_status (events r))%nat /\
  (forall n, EvSetStatus n ∈ events r -> n = 429) /\
  (count_events is_handler_call (events r) = 1%nat -> last (events r) = Some EvHandler) /\
  (forall chunk, EvEnd chunk ∈ events r ->
     (exists before : list Event,
        events r = (before ++ [EvSetStatus 429; EvEnd chunk])%list) /\
     res_statusCode (st_res (final r)) = 429 /\
     res_ended (st_res (final r)) = Some chunk).
Proof.
  intros r. pose proof (run_path limiter_get ms_long clock a req s) as Hp.
  fold r in Hp.
  destruct (lifecycle_counts a req s) as (H1 & H2 & H3 & H4 & H5 & H6 & H7 & H8).
  do 8 (split; [assumption|]). clear H1 H2 H3 H4 H5 H6 H7 H8.
  clearbody r. intros chunk Hin.
  destruct Hp as [ | | | | | | | | |idv limit db' Hl Hset Hr Ht].
  10: { cbn [events final st_res] in *.
        rewrite !elem_of_app, elem_of_cons, !elem_of_app in Hin.
        assert (Hc : chunk = message_or (opt_errorMessage (args_opts a))
                  (default_message ms_long (delta_of limit (clock (st_ticks s))))).
        { destruct Hin as [Hin | [Hin | [Hin | [Hin | Hin]]]].
          - exfalso. revert Hin. unfold prelude_events, predicate_events.
            destruct (opt_whitelist (args_opts a)), (opt_blacklist (args_opts a));
              cbn; rewrite ?elem_of_cons, ?elem_of_nil; intuition discriminate.
          - discriminate.
          - exfalso. revert Hin. unfold limit_header_events.
            destruct (opt_disableHeader (args_opts a));
              rewrite ?elem_of_cons, ?elem_of_nil; intuition discriminate.
          - exfalso. revert Hin. unfold throttle_events.
            rewrite ?elem_of_cons, ?elem_of_nil; intuition discriminate.
          - rewrite elem_of_cons, elem_of_nil in Hin. destruct Hin as [Hin | []]. congruence. }
        subst chunk. split; [|split; reflexivity].
        exists (prelude_events (args_opts a) ++ EvLimiterGet idv ::
                limit_header_events (args_opts a) limit ++
                [EvNow; EvNow;
                 EvSetHeader HRetryAfter "Retry-After"
                   (VNum (after_of limit (clock (S (st_ticks s)))))])%list.
        unfold throttle_events.
        rewrite <- !app_assoc, <- !app_comm_cons, <- !app_assoc. reflexivity. }
  all: exfalso; revert Hin; concrete_events;
       rewrite ?elem_of_cons, ?elem_of_nil; intuition discriminate.
Qed.

(** The middleware writes to the response only after the store has
    answered with a limit: no header, status or body is written before the
    store is asked; if anything is written then the request was neither
    bypassed nor deny-listed and the store answered; and when nothing is
    written and the handler is not called the response is left as it
    was. *)
Theorem writes_follow_the_store_answer a req s :
  let r := run a req s in
  no_write_before_query (events r) = true /\
  ((0 < count_events is_write (events r))%nat ->
   exists idv limit db', limited limiter_get a req s idv limit db') /\
  (count_events is_write (events r) = 0%nat ->
   count_events is_handler_call (events r) = 0%nat ->
   st_res (final r) = st_res s).
Proof.
  intros r. pose proof (run_path limiter_get ms_long clock a req s) as Hp.
  fold r in Hp. clearbody r.
  destruct Hp as [ | | | | | |idv limit db' Hl Hset|idv limit db' Hl Hset Hr
                 |idv limit db' Hl Hset Hr Ht|idv limit db' Hl Hset Hr Ht].
  1-6: concrete_events; repeat split; try reflexivity; try lia; try discriminate.
  all: split; [concrete_events; reflexivity|];
       split; [intros _; exists idv, limit, db'; exact Hl|];
       concrete_events; intros; try discriminate; try lia; try reflexivity.
Qed.

End EveryPath.

(** ** Beyond the claims: the numbers of the throttling response *)

Lemma to_int32_wraps z : 2 ^ 31 <= z < 2 ^ 32 -> to_int32 z = z - 2 ^ 32.
Proof.
  intros Hz. unfold to_int32.
  rewrite <- (Z.mod_unique_pos (z + 2 ^ 31) (2 ^ 32) 1 (z - 2 ^ 31)); lia.
Qed.

Section ThrottleNumbers.

Context {Db : Type}.
Variable limiter_get : Opts -> jsval -> Db -> Outcome Limit * Db.
Variable ms_long : Z -> string.
Variable clock : nat -> Z.

Abbreviation run := (ratelimit limiter_get ms_long clock).

(** On the throttling path (the store answers [remaining = 0] and the
    rate-limit headers are disabled or named as Node accepts): while the
    window is open, [Retry-After] is a whole number of seconds
    that is not negative and never more than the time left: it falls short
    of it by less than a second.  When the reset time the store reports is
    already past, [Retry-After] is zero or negative (line 86). *)
Theorem retry_after_never_overstates a req s idv limit db' :
  limited limiter_get a req s idv limit db' ->
  limit_headers_settable (args_opts a) = true ->
  remaining limit = 0 ->
  let r := run a req s in
  let left_ms := reset limit * 1000 - clock (S (st_ticks s)) in
  - (2 ^ 31 * 1000) < left_ms < 2 ^ 31 * 1000 ->
  exists k,
    getHeader "Retry-After" (st_res (final r)) = Some (VNum k) /\
    (0 <= left_ms -> 0 <= k /\ k * 1000 <= left_ms < (k + 1) * 1000) /\
    (left_ms < 0 -> k <= 0 /\ (k - 1) * 1000 < left_ms <= k * 1000).
Proof.
  intros Hl Hset Hr r left_ms Hrange.
  destruct (run_throttled _ ms_long clock _ _ _ _ _ _ Hl Hset Hr) as (_ & _ & _ & _ & Hra).
  fold r in Hra. rewrite after_of_spec in Hra. fold left_ms in Hra.
  exists (Z.quot left_ms 1000).
  pose proof (Z.quot_rem left_ms 1000 ltac:(lia)) as Hqr.
  assert (Hq : - 2 ^ 31 <= Z.quot left_ms 1000 < 2 ^ 31).
  { destruct (Z.le_gt_cases 0 left_ms) as [Hp | Hn].
    - pose proof (Z.rem_bound_pos left_ms 1000 Hp ltac:(lia)). nia.
    - pose proof (Z.rem_bound_abs left_ms 1000 ltac:(lia)) as Hb.
      pose proof (Z.rem_sign_mul left_ms 1000 ltac:(lia)) as Hsg.
      assert (Z.rem left_ms 1000 <= 0) by nia. lia. }
  rewrite to_int32_small in Hra by exact Hq.
  split; [exact Hra|]. split.
  - intros Hp. pose proof (Z.rem_bound_pos left_ms 1000 Hp ltac:(lia)). nia.
  - intros Hn. pose proof (Z.rem_bound_abs left_ms 1000 ltac:(lia)) as Hb.
      pose proof (Z.rem_sign_mul left_ms 1000 ltac:(lia)) as Hsg.
      assert (Z.rem left_ms 1000 <= 0) by nia. lia.
Qed.

(** On the throttling path without [opts.throw] and without
    [opts.errorMessage], the default message is built from the milliseconds left, as a 32-bit
    integer: up to [2^31 - 1] ms (about 24.8 days) they are passed to [ms]
    as they are; from [2^31] ms on they wrap around, and [ms] is given a
    negative duration (lines 85 and 96). *)
Theorem default_message_wraps a req s idv limit db' :
  limited limiter_get a req s idv limit db' ->
  limit_headers_settable (args_opts a) = true ->
  remaining limit = 0 ->
  opt_throw (args_opts a) = false ->
  opt_errorMessage (args_opts a) = None ->
  let r := run a req s in
  let left_ms := reset limit * 1000 - clock (st_ticks s) in
  (- 2 ^ 31 <= left_ms < 2 ^ 31 ->
   res_ended (st_res (final r)) =
     Some ("Rate limit exceeded, retry in " ++ ms_long left_ms ++ ".")) /\
  (2 ^ 31 <= left_ms < 2 ^ 32 ->
   left_ms - 2 ^ 32 < 0 /\
   res_ended (st_res (final r)) =
     Some ("Rate limit exceeded, retry in " ++ ms_long (left_ms - 2 ^ 32) ++ ".")).
Proof.
  intros (wv & bv & Hid & Hwl & Hbl & Hnb & Hnw & Hget) Hset Hr Ht Hm r left_ms. unfold r.
  rewrite (run_throttled_end _ _ _ _ _ _ _ _ _ Hid Hwl Hbl _ _ Hnb Hnw Hget Hset Hr Ht).
  cbn [final st_res]. rewrite Hm, delta_of_spec. fold left_ms.
  unfold end_with, message_or, default_message. cbn [res_ended].
  split.
  - intros Hs. rewrite to_int32_small by exact Hs. reflexivity.
  - intros Hw. rewrite to_int32_wraps by exact Hw. split; [lia | reflexivity].
Qed.

End ThrottleNumbers.

(** ** Beyond the claims: requests served one after another *)

Section Serving.

Context {Db : Type}.
Variable limiter_get : Opts -> jsval -> Db -> Outcome Limit * Db.
Variable ms_long : Z -> string.
Variable clock : nat -> Z.

Abbreviation run := (ratelimit limiter_get ms_long clock).

(** One request: either the store is not asked, and the handler is called
    exactly when the request is bypassed; or the store is asked once, and
    the handler is called only if its answer lets the request through. *)
Lemma run_accounting a req s :
  let r := run a req s in
  (st_db (final r) = st_db s /\
   count_events is_handler_call (events r) =
     (if bypasses (args_opts a) req then 1 else 0)%nat) \/
  (exists idv,
     bypasses (args_opts a) req = false /\
     st_db (final r) = snd (limiter_get (args_opts a) idv (st_db s)) /\
     (count_events is_handler_call (events r) <=
       (if grants (fst (limiter_get (args_opts a) idv (st_db s))) then 1 else 0))%nat).
Proof.
  intros r. pose proof (run_path limiter_get ms_long clock a req s) as Hp.
  fold r in Hp. clearbody r.
  destruct Hp as [e Hid|idv e Hid Hwl|idv wv e Hid Hwl Hbl|idv wv bv Hid Hwl Hbl Hb
                 |idv wv bv Hid Hwl Hbl Hb Hby|idv wv bv e db' Hid Hwl Hbl Hb Hby Hget
                 |idv limit db' Hl Hset|idv limit db' Hl Hset Hr
                 |idv limit db' Hl Hset Hr Ht|idv limit db' Hl Hset Hr Ht].
  1-5: left; unfold bypasses; rewrite Hid, ?Hwl, ?Hbl, ?Hb, ?Hby;
       cbn [final st_db events]; split; [reflexivity|]; concrete_events; reflexivity.
  - right. exists idv. unfold bypasses. rewrite Hid, Hwl, Hbl, Hb, Hby, Hget.
    cbn [final st_db events fst snd grants]. repeat split. count_path. reflexivity.
  - right. exists idv. destruct Hl as (wv & bv & Hid & Hwl & Hbl & Hb & Hby & Hget).
    unfold bypasses. rewrite Hid, Hwl, Hbl, Hb, Hby, Hget.
    cbn [final st_db events fst snd grants truthy]. repeat split.
    count_path. unfold limit_headers_refusal.
    destruct (is_token (total_name (args_opts a))),
             (is_token (remaining_name (args_opts a))); cbn; lia.
  - right. exists idv. destruct Hl as (wv & bv & Hid & Hwl & Hbl & Hb & Hby & Hget).
    unfold bypasses. rewrite Hid, Hwl, Hbl, Hb, Hby, Hget.
    cbn [final st_db events fst snd grants truthy]. repeat split.
    count_path. destruct (Z.eqb_spec (remaining limit) 0); [contradiction | reflexivity].
  - right. exists idv. destruct Hl as (wv & bv & Hid & Hwl & Hbl & Hb & Hby & Hget).
    unfold bypasses. rewrite Hid, Hwl, Hbl, Hb, Hby, Hget.
    cbn [final st_db events fst snd grants truthy]. repeat split.
    count_path. rewrite Hr. reflexivity.
  - right. exists idv. destruct Hl as (wv & bv & Hid & Hwl & Hbl & Hb & Hby & Hget).
    unfold bypasses. rewrite Hid, Hwl, Hbl, Hb, Hby, Hget.
    cbn [final st_db events fst snd grants truthy]. repeat split.
    count_path. rewrite Hr. reflexivity.
Qed.

Lemma grants_at_most_next n db o idv :
  grants_at_most limiter_get n db ->
  let answer := fst (limiter_get o idv db) in
  let db' := snd (limiter_get o idv db) in
  ((if grants answer then 1 else 0) <= n)%nat /\
  grants_at_most limiter_get (n - (if grants answer then 1 else 0)) db'.
Proof.
  intros Hn. cbv zeta.
  assert (Hstep : forall qs,
            answers limiter_get ((o, idv) :: qs) db =
            fst (limiter_get o idv db) :: answers limiter_get qs (snd (limiter_get o idv db))).
  { intros qs. simpl. destruct (limiter_get o idv db). reflexivity. }
  split.
  - specialize (Hn [(o, idv)]). rewrite Hstep in Hn. simpl in Hn.
    destruct (grants (fst (limiter_get o idv db))); simpl in Hn; lia.
  - intros qs. specialize (Hn ((o, idv) :: qs)). rewrite Hstep in Hn. simpl in Hn.
    destruct (grants (fst (limiter_get o idv db))); simpl in Hn; lia.
Qed.

(** The limit is enforced: over requests served one after another, the
    handler is called at most as often as the store lets queries through,
    plus once for every bypassed request. *)
Theorem admitted_requests_are_bounded a rs db ticks n :
  grants_at_most limiter_get n db ->
  (handler_calls (serve limiter_get ms_long clock a rs db ticks) <=
   n + length (List.filter (fun rr => bypasses (args_opts a) (fst rr)) rs))%nat.
Proof.
  revert db ticks n. induction rs as [|[req res] rest IH]; intros db ticks n Hn.
  - unfold handler_calls. simpl. lia.
  - cbn [serve]. unfold handler_calls in *. cbn [List.map list_sum List.filter fst].
    destruct (run_accounting a req (mkState res db ticks)) as [[Hdb Hc] | (idv & Hby & Hdb & Hc)].
    + rewrite Hc, Hdb. cbn [st_db].
      specialize (IH db (st_ticks (final (run a req (mkState res db ticks)))) n Hn).
      destruct (bypasses (args_opts a) req); simpl; lia.
    + rewrite Hdb, Hby. cbn [st_db] in *.
      destruct (grants_at_most_next n db (args_opts a) idv Hn) as [Hle Hnext].
      specialize (IH _ (st_ticks (final (run a req (mkState res db ticks)))) _ Hnext).
      destruct (grants (fst (limiter_get (args_opts a) idv db))); simpl in *; lia.
Qed.

End Serving.

(** ** Beyond the claims, on concrete requests *)

(** The sample store lets through as many queries as it has requests
    left. *)
Lemma counting_store_grants db :
  0 <= remaining db ->
  grants_at_most counting_store (Z.to_nat (remaining db)) db.
Proof.
  intros Hpos qs. revert db Hpos.
  induction qs as [|[o id] qs IH]; intros db Hpos; [simpl; lia|].
  cbn [answers counting_store List.filter grants truthy].
  specialize (IH {| total := total db; remaining := Z.max 0 (remaining db - 1);
                    reset := reset db |} ltac:(simpl; lia)).
  cbn [remaining] in IH.
  destruct (Z.eqb_spec (remaining db) 0) as [Hz | Hz]; cbn [negb length].
  - rewrite Hz in *. exact IH.
  - replace (Z.to_nat (remaining db)) with (S (Z.to_nat (Z.max 0 (remaining db - 1))))
      by lia.
    apply le_n_S, IH.
Qed.

(** The store is down. *)
Lemma store_failure_witness :
  let r := ratelimit (failing_store redis_down) ms_fmtLong (fixed_clock 95000)
             (HandlerOnly ok_handler) proxied_request (start (quota 3 100)) in
  outcome r = Throw redis_down /\
  st_res (final r) = fresh_response /\
  count_events is_handler_call (events r) = 0%nat.
Proof.
  intros r.
  destruct (store_failure_propagates (failing_store redis_down) ms_fmtLong
              (fixed_clock 95000) (HandlerOnly ok_handler) proxied_request
              (start (quota 3 100)) proxied_id (VBool false) (VBool false)
              redis_down (quota 3 100) eq_refl eq_refl eq_refl eq_refl eq_refl eq_refl)
    as (Ho & Hres & _ & _ & _ & Hh).
  split; [exact Ho|]. split; [exact Hres | exact Hh].
Defined.

(** A request object without [connection] and without a forwarded-for
    header, under the default resolver. *)
Lemma resolver_failure_witness :
  let r := ratelimit counting_store ms_fmtLong (fixed_clock 95000)
             (HandlerOnly ok_handler) bare_request (start (quota 3 100)) in
  outcome r = Throw TypeError_undefined /\
  final r = start (quota 3 100) /\
  events r = [EvResolveId].
Proof.
  exact (resolver_failure_stops_request counting_store ms_fmtLong (fixed_clock 95000)
           (HandlerOnly ok_handler) bare_request (start (quota 3 100))
           TypeError_undefined eq_refl).
Defined.

(** A whitelist that throws for a caller the blacklist would reject, and
    a blacklist that throws for a caller the whitelist accepts. *)
Lemma predicate_failure_witness :
  let w := ratelimit counting_store ms_fmtLong (fixed_clock 95000)
             (WithOpts (opts_with_lists (fun _ => Throw boom) (fun _ => Ret (VBool true)))
                ok_handler)
             direct_request (start (quota 3 100)) in
  let b := ratelimit counting_store ms_fmtLong (fixed_clock 95000)
             (WithOpts (opts_with_lists (fun _ => Ret (VBool true)) (fun _ => Throw boom))
                ok_handler)
             direct_request (start (quota 3 100)) in
  (outcome w = Throw boom /\ events w = [EvResolveId; EvWhitelist]) /\
  (outcome b = Throw boom /\ count_events is_handler_call (events b) = 0%nat).
Proof.
  intros w b. split.
  - destruct (proj1 (predicate_failure_stops_request counting_store ms_fmtLong
                       (fixed_clock 95000)
                       (WithOpts (opts_with_lists (fun _ => Throw boom)
                                    (fun _ => Ret (VBool true))) ok_handler)
                       direct_request (start (quota 3 100)) (VBool false) eq_refl)
                    boom eq_refl)
      as (Ho & _ & Hev).
    split; [exact Ho | exact Hev].
  - destruct (proj2 (predicate_failure_stops_request counting_store ms_fmtLong
                       (fixed_clock 95000)
                       (WithOpts (opts_with_lists (fun _ => Ret (VBool true))
                                    (fun _ => Throw boom)) ok_handler)
                       direct_request (start (quota 3 100)) (VBool false) eq_refl)
                    (VBool true) boom eq_refl eq_refl)
      as (Ho & _ & Hh & _).
    split; [exact Ho | exact Hh].
Defined.

(** A store whose [get] calls back with an error and a result. *)
Lemma thenify_witness :
  let r := ratelimit (thenified (callback_store (Some redis_down))) ms_fmtLong
             (fixed_clock 95000) (HandlerOnly ok_handler) proxied_request
             (start (quota 3 100)) in
  outcome r = Throw redis_down /\
  count_events is_write (events r) = 0%nat /\
  count_events is_handler_call (events r) = 0%nat.
Proof.
  exact (proj1 (thenify_is_error_first ms_fmtLong (fixed_clock 95000)
                  (callback_store (Some redis_down)) (HandlerOnly ok_handler)
                  proxied_request (start (quota 3 100)) proxied_id (VBool false)
                  (VBool false) (CallsBack (Some redis_down) (quota 3 100)) (quota 3 100)
                  eq_refl eq_refl eq_refl eq_refl eq_refl eq_refl)
               redis_down (quota 3 100) eq_refl).
Defined.

(** A request without [connection], and a peer that has gone. *)
Lemma keyGenerator_TypeError_witness :
  keyGenerator bare_request = Throw TypeError_undefined /\
  keyGenerator disconnected_request = Throw TypeError_undefined.
Proof.
  split.
  - exact (proj1 (keyGenerator_TypeError bare_request eq_refl) eq_refl).
  - exact (proj2 (proj2 (keyGenerator_TypeError disconnected_request eq_refl)
                    {| conn_remoteAddress := None; conn_socket := None |}
                    eq_refl eq_refl)
             {| sock_remoteAddress := None |} eq_refl eq_refl eq_refl).
Defined.

(** An address known to [req.socket] only, and one known to
    [req.connection.socket] only. *)
Lemma keyGenerator_last_resorts_witness :
  keyGenerator socket_only_request = Ret (VStr "192.0.2.9") /\
  keyGenerator tls_request = Ret (VStr "192.0.2.10").
Proof.
  split.
  - apply (proj1 (keyGenerator_last_resorts socket_only_request
                    {| conn_remoteAddress := None; conn_socket := None |}
                    eq_refl eq_refl eq_refl)
             {| sock_remoteAddress := Some "192.0.2.9" |} "192.0.2.9");
      [reflexivity | reflexivity | discriminate].
  - exact (proj2 (keyGenerator_last_resorts tls_request
                    {| conn_remoteAddress := None;
                       conn_socket := Some {| sock_remoteAddress := Some "192.0.2.10" |} |}
                    eq_refl eq_refl eq_refl)
             {| sock_remoteAddress := None |}
             {| sock_remoteAddress := Some "192.0.2.10" |} eq_refl eq_refl eq_refl).
Defined.

(** A total name with a space in it: the request fails, and the quota
    has been charged. *)
Lemma refused_header_name_witness :
  let r := ratelimit counting_store ms_fmtLong (fixed_clock 95000)
             (WithOpts (opts_with_headers spaced_names) ok_handler)
             proxied_request (start (quota 3 100)) in
  outcome r = Throw (TypeError_invalid_token "X Max") /\
  st_res (final r) = fresh_response /\
  st_db (final r) = quota 2 100 /\
  count_events is_handler_call (events r) = 0%nat.
Proof.
  intros r.
  assert (Hl : limited counting_store
                 (WithOpts (opts_with_headers spaced_names) ok_handler)
                 proxied_request (start (quota 3 100)) proxied_id (quota 3 100)
                 (quota 2 100)).
  { reaches_store. }
  destruct (refused_header_name_stops_request counting_store ms_fmtLong
              (fixed_clock 95000)
              (WithOpts (opts_with_headers spaced_names) ok_handler)
              proxied_request (start (quota 3 100)) proxied_id (quota 3 100)
              (quota 2 100) Hl eq_refl)
    as (_ & Htotal & Hdb & _ & _ & _ & _ & Hh & _).
  destruct (Htotal eq_refl) as (Ho & Hres & _).
  split; [exact Ho|]. split; [exact Hres|]. split; [exact Hdb | exact Hh].
Defined.

(** Three requests left. *)
Lemma allowed_request_witness :
  let r := ratelimit counting_store ms_fmtLong (fixed_clock 95000)
             (HandlerOnly ok_handler) proxied_request (start (quota 3 100)) in
  outcome r = Ret (VStr "ok") /\
  st_db (final r) = quota 2 100 /\
  count_events is_handler_call (events r) = 1%nat /\
  count_events is_status (events r) = 0%nat /\
  last (events r) = Some EvHandler.
Proof.
  intros r.
  assert (Hl : limited counting_store (HandlerOnly ok_handler) proxied_request
                 (start (quota 3 100)) proxied_id (quota 3 100) (quota 2 100)).
  { reaches_store. }
  destruct (allowed_request_reaches_handler counting_store ms_fmtLong (fixed_clock 95000)
              (HandlerOnly ok_handler) proxied_request (start (quota 3 100))
              proxied_id (quota 3 100) (quota 2 100) Hl eq_refl ltac:(discriminate))
    as (Ho & _ & Hdb & _ & _ & _ & Hh & _ & Hst & _ & _ & Hlast).
  split; [exact Ho|]. split; [exact Hdb|]. split; [exact Hh|].
  split; [exact Hst | exact Hlast].
Defined.

(** A store that answers [remaining = -1]. *)
Lemma negative_remaining_witness :
  let r := ratelimit counting_store ms_fmtLong (fixed_clock 95000)
             (HandlerOnly ok_handler) proxied_request (start (quota (-1) 100)) in
  count_events is_handler_call (events r) = 1%nat /\
  count_events is_status (events r) = 0%nat /\
  outcome r = Ret (VStr "ok") /\
  getHeader "X-RateLimit-Remaining"
    (with_limit_headers no_opts (quota (-1) 100) fresh_response) = Some (VNum 0).
Proof.
  intros r.
  assert (Hl : limited counting_store (HandlerOnly ok_handler) proxied_request
                 (start (quota (-1) 100)) proxied_id (quota (-1) 100) (quota 0 100)).
  { reaches_store. }
  destruct (negative_remaining_is_allowed counting_store ms_fmtLong (fixed_clock 95000)
              (HandlerOnly ok_handler) proxied_request (start (quota (-1) 100))
              proxied_id (quota (-1) 100) (quota 0 100) Hl eq_refl ltac:(simpl; lia))
    as (Hh & Hst & Ho & _ & Hw).
  split; [exact Hh|]. split; [exact Hst|]. split; [exact Ho|].
  exact (Hw eq_refl ltac:(vm_compute; discriminate)).
Defined.

(** The last allowed request and the first refused one both report 0. *)
Lemma remaining_header_zero_witness :
  let last := ratelimit counting_store ms_fmtLong (fixed_clock 95000)
                (HandlerOnly ok_handler) proxied_request (start (quota 1 100)) in
  let refused := ratelimit counting_store ms_fmtLong (fixed_clock 95000)
                   (HandlerOnly ok_handler) proxied_request (start (quota 0 100)) in
  (outcome last = Ret (VStr "ok") /\
   getHeader "X-RateLimit-Remaining"
     (with_limit_headers no_opts (quota 1 100) fresh_response) = Some (VNum 0)) /\
  (res_statusCode (st_res (final refused)) = 429 /\
   getHeader "X-RateLimit-Remaining" (st_res (final refused)) = Some (VNum 0)).
Proof.
  intros last refused. split.
  - assert (Hl : limited counting_store (HandlerOnly ok_handler) proxied_request
                   (start (quota 1 100)) proxied_id (quota 1 100) (quota 0 100)).
    { reaches_store. }
    destruct (proj1 (remaining_header_zero counting_store ms_fmtLong (fixed_clock 95000)
                       (HandlerOnly ok_handler) proxied_request (start (quota 1 100))
                       proxied_id (quota 1 100) (quota 0 100) Hl eq_refl eq_refl
                       ltac:(vm_compute; discriminate)) eq_refl)
      as (Ho & _ & _ & Hw).
    split; [exact Ho | exact Hw].
  - assert (Hl : limited counting_store (HandlerOnly ok_handler) proxied_request
                   (start (quota 0 100)) proxied_id (quota 0 100) (quota 0 100)).
    { reaches_store. }
    destruct (proj2 (remaining_header_zero counting_store ms_fmtLong (fixed_clock 95000)
                       (HandlerOnly ok_handler) proxied_request (start (quota 0 100))
                       proxied_id (quota 0 100) (quota 0 100) Hl eq_refl eq_refl
                       ltac:(vm_compute; discriminate)) eq_refl
                    ltac:(vm_compute; discriminate))
      as (_ & Hst & Hw).
    split; [exact Hst | exact Hw].
Defined.

(** A resolver that answers [null]. *)
Lemma only_false_witness :
  let r := ratelimit counting_store ms_fmtLong (fixed_clock 95000)
             (WithOpts (opts_with_id (fun _ => Ret VNull)) ok_handler)
             direct_request (start (quota 3 100)) in
  EvLimiterGet VNull ∈ events r /\
  count_events is_store_query (events r) = 1%nat.
Proof.
  exact (only_false_disables_limiting counting_store ms_fmtLong (fixed_clock 95000)
           (WithOpts (opts_with_id (fun _ => Ret VNull)) ok_handler)
           direct_request (start (quota 3 100)) VNull (VBool false) (VBool false)
           eq_refl eq_refl eq_refl eq_refl eq_refl ltac:(discriminate)).
Defined.

(** Two names overridden, one left at its default. *)
Lemma handler_sees_headers_witness :
  let r := ratelimit counting_store ms_fmtLong (fixed_clock 95000)
             (WithOpts (opts_with_headers short_names) ok_handler)
             proxied_request (start (quota 3 100)) in
  exists res,
    st_res (final r) = end_with "ok" res /\
    getHeader "x-max" res = Some (VNum 10) /\
    getHeader "X-LEFT" res = Some (VNum 2) /\
    getHeader "X-RateLimit-Reset" res = Some (VNum 100) /\
    getHeader "X-RateLimit-Limit" res = None.
Proof.
  intros r.
  assert (Hl : limited counting_store (WithOpts (opts_with_headers short_names) ok_handler)
                 proxied_request (start (quota 3 100)) proxied_id (quota 3 100)
                 (quota 2 100)).
  { reaches_store. }
  destruct (handler_sees_limit_headers counting_store ms_fmtLong (fixed_clock 95000)
              (WithOpts (opts_with_headers short_names) ok_handler)
              proxied_request (start (quota 3 100)) proxied_id (quota 3 100) (quota 2 100)
              Hl ltac:(discriminate) eq_refl eq_refl eq_refl eq_refl
              ltac:(vm_compute; discriminate) ltac:(vm_compute; discriminate)
              ltac:(vm_compute; discriminate))
    as (res & _ & Hres & Ht & Hr & Hs & Hother & _).
  exists res. split; [exact Hres|]. split; [exact Ht|]. split; [exact Hr|].
  split; [exact Hs|].
  rewrite Hother by (vm_compute; discriminate). reflexivity.
Defined.

(** 4.5 seconds before the window closes, and 5.5 seconds after. *)
Lemma retry_after_witness :
  let early := ratelimit counting_store ms_fmtLong (fixed_clock 95500)
                 (HandlerOnly ok_handler) proxied_request (start (quota 0 100)) in
  let late := ratelimit counting_store ms_fmtLong (fixed_clock 105500)
                (HandlerOnly ok_handler) proxied_request (start (quota 0 100)) in
  (exists k, getHeader "Retry-After" (st_res (final early)) = Some (VNum k) /\
             0 <= k /\ k * 1000 <= 4500 < (k + 1) * 1000) /\
  (exists k, getHeader "Retry-After" (st_res (final late)) = Some (VNum k) /\ k <= 0).
Proof.
  intros early late.
  assert (Hl : limited counting_store (HandlerOnly ok_handler) proxied_request
                 (start (quota 0 100)) proxied_id (quota 0 100) (quota 0 100)).
  { reaches_store. }
  split.
  - destruct (retry_after_never_overstates counting_store ms_fmtLong (fixed_clock 95500)
                (HandlerOnly ok_handler) proxied_request (start (quota 0 100))
                proxied_id (quota 0 100) (quota 0 100) Hl eq_refl eq_refl
                ltac:(vm_compute; split; reflexivity))
      as (k & Hk & Hopen & _).
    exists k. split; [exact Hk|]. apply Hopen. vm_compute. discriminate.
  - destruct (retry_after_never_overstates counting_store ms_fmtLong (fixed_clock 105500)
                (HandlerOnly ok_handler) proxied_request (start (quota 0 100))
                proxied_id (quota 0 100) (quota 0 100) Hl eq_refl eq_refl
                ltac:(vm_compute; split; reflexivity))
      as (k & Hk & _ & Hclosed).
    exists k. split; [exact Hk|]. apply Hclosed. vm_compute. reflexivity.
Defined.

(** A window that closes in 30 days: the message speaks of minus 20
    days. *)
Lemma default_message_wraps_witness :
  let r := ratelimit counting_store ms_fmtLong (fixed_clock 0)
             (HandlerOnly ok_handler) proxied_request (start (quota 0 2592000)) in
  res_ended (st_res (final r)) = Some "Rate limit exceeded, retry in -20 days.".
Proof.
  intros r.
  assert (Hl : limited counting_store (HandlerOnly ok_handler) proxied_request
                 (start (quota 0 2592000)) proxied_id (quota 0 2592000)
                 (quota 0 2592000)).
  { reaches_store. }
  destruct (default_message_wraps counting_store ms_fmtLong (fixed_clock 0)
              (HandlerOnly ok_handler) proxied_request (start (quota 0 2592000))
              proxied_id (quota 0 2592000) (quota 0 2592000) Hl eq_refl eq_refl eq_refl
              eq_refl)
    as (_ & Hwrap).
  destruct (Hwrap ltac:(vm_compute; split; [discriminate | reflexivity])) as (_ & Hmsg).
  exact Hmsg.
Defined.

(** Four requests against a quota of two. *)
Lemma admitted_requests_witness :
  (handler_calls
     (serve counting_store ms_fmtLong (fixed_clock 95000) (HandlerOnly ok_handler)
        [(proxied_request, fresh_response); (direct_request, fresh_response);
         (proxied_request, fresh_response); (direct_request, fresh_response)]
        (quota 2 100) 0) <= 2)%nat.
Proof.
  exact (admitted_requests_are_bounded counting_store ms_fmtLong (fixed_clock 95000)
           (HandlerOnly ok_handler)
           [(proxied_request, fresh_response); (direct_request, fresh_response);
            (proxied_request, fresh_response); (direct_request, fresh_response)]
           (quota 2 100) 0%nat 2%nat
           (counting_store_grants (quota 2 100) ltac:(simpl; lia))).
Defined.
